(** * claude-hue: usage arbitration and light-update daemon

    A shallow embedding of the TypeScript sources

      - [src/hue/color.ts]      (interpolation; its text follows light.ts),
      - [src/hue/light.ts]      (the bridge command),
      - [src/daemon/usage.ts]   (local prompt counting and log trimming),
      - [src/claude/api.ts]     (the remote usage parser),
      - [src/daemon/daemon.ts]  (the daemon: snapshot, resolver, handlers),

    followed by the properties of the specification, stated on these
    definitions.

    Conventions of the embedding.

    - A JavaScript [number] is a value of [num]: a rational, [NaN] or one of
      the two infinities.  Arithmetic on finite values is exact: the rounding
      of IEEE-754 binary64 is abstracted, and the two zeros are identified.
      Where rounding decides a statement, the same function is run on
      binary64 floats ([Module Binary64]).
    - Timestamps ([Date.now()], [getTime()]) are integers, in milliseconds.
    - A JSON value is a [json]; the property list of an object is kept in
      enumeration order, as [Object.keys] yields it.
    - Built-ins whose full definition lives in the language standard
      ([parseFloat], [Date] parsing, number-to-string conversion) are the
      fields of a record [Builtins]; the theorems hold for every such record,
      and a small concrete one ([std]) runs the examples.
    - The outside world (clock, credentials, network, bridge, process table)
      is an oracle record [World]; a handler is a state transformer over the
      daemon's variables and files, which also records what it did in a
      trace.  One handler invocation is modelled as one atomic step. *)

From Stdlib Require Import ZArith QArith Qround Lia Lqa List Bool.
From Stdlib Require Import Ascii String DecimalString.
From Stdlib Require Import Floats.
From Stdlib Require DecimalPos DecimalZ.
Import ListNotations.

Set Implicit Arguments.
Set Warnings "-inexact-float,-register-all".

(* ===================================================================== *)
(** * JavaScript numbers                                                   *)
(* ===================================================================== *)

Module Num.

Inductive num : Type :=
| NaN
| NInf
| Fin (q : Q)
| PInf.

Definition of_Z (z : Z) : num := Fin (inject_Z z).
Definition of_nat (n : nat) : num := of_Z (Z.of_nat n).

Definition Qlt_bool (x y : Q) : bool := negb (Qle_bool y x).

Lemma Qlt_bool_iff x y : Qlt_bool x y = true <-> (x < y)%Q.
Proof.
  unfold Qlt_bool. rewrite negb_true_iff.
  split; intro H.
  - apply Qnot_le_lt. intro L. apply Qle_bool_iff in L. congruence.
  - destruct (Qle_bool y x) eqn:E; [|reflexivity].
    apply Qle_bool_iff in E. exfalso. apply (Qlt_not_le _ _ H E).
Qed.

(** Numeric equality of model values ([Fin] carries an unreduced
    fraction). *)
Definition eq (a b : num) : Prop :=
  match a, b with
  | NaN, NaN | NInf, NInf | PInf, PInf => True
  | Fin p, Fin q => (p == q)%Q
  | _, _ => False
  end.

Definition ltb (a b : num) : bool :=
  match a, b with
  | NaN, _ | _, NaN => false
  | _, NInf => false
  | NInf, _ => true
  | PInf, _ => false
  | Fin _, PInf => true
  | Fin p, Fin q => Qlt_bool p q
  end.

Definition leb (a b : num) : bool :=
  match a, b with
  | NaN, _ | _, NaN => false
  | NInf, _ => true
  | _, PInf => true
  | _, NInf => false
  | PInf, _ => false
  | Fin p, Fin q => Qle_bool p q
  end.

Definition gtb (a b : num) : bool := ltb b a.
Definition geb (a b : num) : bool := leb b a.

Definition lt (a b : num) : Prop := ltb a b = true.
Definition le (a b : num) : Prop := leb a b = true.

Definition neg (a : num) : num :=
  match a with
  | NaN => NaN
  | NInf => PInf
  | PInf => NInf
  | Fin q => Fin (- q)
  end.

Definition add (a b : num) : num :=
  match a, b with
  | NaN, _ | _, NaN => NaN
  | PInf, NInf | NInf, PInf => NaN
  | PInf, _ | _, PInf => PInf
  | NInf, _ | _, NInf => NInf
  | Fin p, Fin q => Fin (p + q)
  end.

Definition sub (a b : num) : num := add a (neg b).

(** Sign of a finite value: [Lt], [Eq] or [Gt] with respect to zero. *)
Definition sgn (q : Q) : comparison := (q ?= 0)%Q.

Definition inf_of (c : comparison) : num :=
  match c with
  | Gt => PInf
  | Lt => NInf
  | Eq => NaN
  end.

Definition mul (a b : num) : num :=
  match a, b with
  | NaN, _ | _, NaN => NaN
  | Fin p, Fin q => Fin (p * q)
  | PInf, PInf | NInf, NInf => PInf
  | PInf, NInf | NInf, PInf => NInf
  | PInf, Fin q | Fin q, PInf => inf_of (sgn q)
  | NInf, Fin q | Fin q, NInf => inf_of (sgn (- q))
  end.

(** Division; a zero divisor is the positive zero. *)
Definition div (a b : num) : num :=
  match a, b with
  | NaN, _ | _, NaN => NaN
  | Fin p, Fin q =>
      if Qeq_bool q 0 then inf_of (sgn p) else Fin (p / q)
  | Fin _, PInf | Fin _, NInf => Fin 0
  | PInf, Fin q => if Qlt_bool q 0 then NInf else PInf
  | NInf, Fin q => if Qlt_bool q 0 then PInf else NInf
  | _, _ => NaN
  end.

(** [Math.min(a, b)] and [Math.max(a, b)]. *)
Definition Math_min (a b : num) : num :=
  match a, b with
  | NaN, _ | _, NaN => NaN
  | _, _ => if leb a b then a else b
  end.

Definition Math_max (a b : num) : num :=
  match a, b with
  | NaN, _ | _, NaN => NaN
  | _, _ => if leb b a then a else b
  end.

(** [Math.max(...xs)]: the maximum of no argument is [-Infinity]. *)
Definition Math_max_list (xs : list num) : num :=
  fold_left Math_max xs NInf.

(** [Math.round]: the nearest integer, halves going up. *)
Definition Math_round (a : num) : num :=
  match a with
  | Fin q => Fin (inject_Z (Qfloor (q + (1 # 2))))
  | _ => a
  end.

(** [isNaN] on a number. *)
Definition isNaN (a : num) : bool :=
  match a with NaN => true | _ => false end.

(** Truthiness of a number: [0] and [NaN] are falsy. *)
Definition truthy (a : num) : bool :=
  match a with
  | NaN => false
  | Fin q => negb (Qeq_bool q 0)
  | _ => true
  end.

End Num.

Import Num.

Declare Scope num_scope.
Delimit Scope num_scope with num.
Bind Scope num_scope with num.
Infix "+" := add : num_scope.
Infix "-" := sub : num_scope.
Infix "*" := mul : num_scope.
Infix "/" := div : num_scope.
Infix ">?" := gtb (at level 70) : num_scope.
Infix ">=?" := geb (at level 70) : num_scope.
Infix "<?" := ltb (at level 70) : num_scope.
Infix "<=?" := leb (at level 70) : num_scope.
Infix "==" := Num.eq (at level 70) : num_scope.
Notation "0" := (Fin 0) : num_scope.
Notation "1" := (Fin 1) : num_scope.
Notation "100" := (Fin 100) : num_scope.

(* ===================================================================== *)
(** * src/hue/color.ts                                                     *)
(* ===================================================================== *)

(** The arithmetic the interpolation needs, as an interface: the functions
    below are written once and run both on [num] and on binary64 floats. *)
Class Arith (N : Type) : Type := {
  a_zero : N;
  a_one : N;
  a_add : N -> N -> N;
  a_sub : N -> N -> N;
  a_mul : N -> N -> N;
  a_min : N -> N -> N;
  a_max : N -> N -> N
}.

(** [Math.round], for the number types that have it. *)
Class Rounding (N : Type) : Type := { a_round : N -> N }.

(** Exact rationals: the formula without rounding.  What the program
    computes is the instance [Arith_float] of [Module Binary64] below, and
    the laws of [interpolateColor] are proved on that one; [num] serves
    where no operation rounds or where rounding, being monotone, cannot
    change the statement. *)
#[export] Instance Arith_num : Arith num := {
  a_zero := Fin 0;
  a_one := Fin 1;
  a_add := add;
  a_sub := sub;
  a_mul := mul;
  a_min := Math_min;
  a_max := Math_max
}.

#[export] Instance Rounding_num : Rounding num := {
  a_round := Math_round
}.

Module Color.

(** [interface CieXY { x: number; y: number }] *)
Record CieXY (N : Type) : Type := mkCieXY { x : N; y : N }.

Section Interpolation.
Context {N : Type} `{Arith N} `{Rounding N}.

(** [Math.max(0, Math.min(1, t))] *)
Definition clamp01 (t : N) : N := a_max a_zero (a_min a_one t).

Definition interpolateColor (start end_ : CieXY N) (t : N) : CieXY N :=
  let clamped := clamp01 t in
  {| x := a_add (x start) (a_mul (a_sub (x end_) (x start)) clamped);
     y := a_add (y start) (a_mul (a_sub (y end_) (y start)) clamped) |}.

Definition interpolateBrightness (start end_ t : N) : N :=
  let clamped := clamp01 t in
  a_round (a_add start (a_mul (a_sub end_ start) clamped)).

End Interpolation.

End Color.

Import Color.

(** The same code on IEEE-754 binary64, the representation JavaScript
    uses. *)
Module Binary64.

(** [Math.min] and [Math.max].  They return [NaN] when an argument is
    [NaN].  Of two zeros they return the first, which is what JavaScript
    returns in the one place [clamp01] can present two zeros,
    [Math.max(0, -0) = 0]. *)
Definition fmin (a b : float) : float :=
  if (PrimFloat.ltb a b || PrimFloat.eqb a b)%bool then a else
  if PrimFloat.ltb b a then b else nan.

Definition fmax (a b : float) : float :=
  if (PrimFloat.ltb b a || PrimFloat.eqb a b)%bool then a else
  if PrimFloat.ltb a b then b else nan.

#[global] Instance Arith_float : Arith float := {
  a_zero := 0%float;
  a_one := 1%float;
  a_add := PrimFloat.add;
  a_sub := PrimFloat.sub;
  a_mul := PrimFloat.mul;
  a_min := fmin;
  a_max := fmax
}.

(** [COLOR_PRESETS.green], [.blue], [.red] and [.yellow]. *)
Definition green : CieXY float := {| x := 0.2151%float; y := 0.7106%float |}.
Definition blue : CieXY float := {| x := 0.153%float; y := 0.048%float |}.
Definition red : CieXY float := {| x := 0.675%float; y := 0.322%float |}.
Definition yellow : CieXY float := {| x := 0.4317%float; y := 0.5007%float |}.

End Binary64.

(** On binary64 the interpolation from green to blue does not end on blue:
    [0.7106 + (0.048 - 0.7106) * 1] is [0.04800000000000004], a few units
    in the last place away from [0.048]. *)
Lemma interpolateColor_binary64_end_inexact :
  PrimFloat.eqb
    (y (interpolateColor Binary64.green Binary64.blue 1%float))
    (y Binary64.blue) = false.
Proof. vm_compute. reflexivity. Qed.

(* ===================================================================== *)
(** * Strings                                                              *)
(* ===================================================================== *)

Open Scope string_scope.

Module Str.

Definition newline : ascii := "010"%char.

(** The string ["\n"]. *)
Definition nl : string := String newline EmptyString.

(** [s.split(c)] for a one-character separator. *)
Fixpoint split (c : ascii) (s : string) : list string :=
  match s with
  | EmptyString => [EmptyString]
  | String a s' =>
      if Ascii.eqb a c then EmptyString :: split c s'
      else match split c s' with
           | [] => [String a EmptyString]
           | w :: ws => String a w :: ws
           end
  end.

(** [xs.join(sep)] *)
Definition join (sep : string) (xs : list string) : string :=
  String.concat sep xs.

(** [Boolean(s)]: the empty string is the only falsy string. *)
Definition nonempty (s : string) : bool :=
  match s with
  | EmptyString => false
  | String _ _ => true
  end.

(** White space of [trim], on the ASCII range: TAB, LF, VT, FF, CR and
    space. *)
Definition is_ws (a : ascii) : bool :=
  let n := nat_of_ascii a in
  ((9 <=? n)%nat && (n <=? 13)%nat) || (n =? 32)%nat.

Fixpoint trimStart (s : string) : string :=
  match s with
  | EmptyString => EmptyString
  | String a s' => if is_ws a then trimStart s' else s
  end.

Fixpoint trimEnd (s : string) : string :=
  match s with
  | EmptyString => EmptyString
  | String a s' =>
      match trimEnd s' with
      | EmptyString => if is_ws a then EmptyString else String a EmptyString
      | r => String a r
      end
  end.

Definition trim (s : string) : string := trimEnd (trimStart s).

Definition lower (a : ascii) : ascii :=
  let n := nat_of_ascii a in
  if ((65 <=? n)%nat && (n <=? 90)%nat)%bool then ascii_of_nat (n + 32) else a.

(** [s.toLowerCase()], on the ASCII range.  The only other characters whose
    lower case falls in ASCII are U+212A and U+0130, which yield [k] and
    [i] followed by a combining dot; neither can complete one of the words
    this program searches for. *)
Fixpoint toLowerCase (s : string) : string :=
  match s with
  | EmptyString => EmptyString
  | String a s' => String (lower a) (toLowerCase s')
  end.

(** [hay.includes(needle)] *)
Fixpoint includes (hay needle : string) : bool :=
  if String.prefix needle hay then true
  else match hay with
       | EmptyString => false
       | String _ h' => includes h' needle
       end.

(** Decimal rendering of an integer, as [n.toString()] gives it. *)
Definition of_Z (z : Z) : string := NilZero.string_of_int (Z.to_int z).

Definition digit_of (a : ascii) : option Z :=
  let n := nat_of_ascii a in
  if ((48 <=? n)%nat && (n <=? 57)%nat)%bool then Some (Z.of_nat (n - 48))
  else None.

Fixpoint digits (acc : option Z) (s : string) : option Z :=
  match s with
  | EmptyString => acc
  | String a s' =>
      match digit_of a with
      | Some d =>
          digits (Some (10 * match acc with Some v => v | None => 0 end + d)%Z) s'
      | None => acc
      end
  end.

(** [parseInt(s, 10)]: leading white space, an optional sign, then the
    longest run of decimal digits; [None] stands for [NaN]. *)
Definition parseInt10 (s : string) : option Z :=
  match trimStart s with
  | String "-" r => option_map Z.opp (digits None r)
  | String "+" r => digits None r
  | r => digits None r
  end.

End Str.

(* ===================================================================== *)
(** * JSON values                                                          *)
(* ===================================================================== *)

(** A value [JSON.parse] returns.  The property list of an object holds
    its keys once each, in enumeration order. *)
Inductive json : Type :=
| JNull
| JBool (b : bool)
| JNum (n : num)
| JStr (s : string)
| JArr (items : list json)
| JObj (props : list (string * json)).

(** The result of reading a property is [None] when the property is
    missing ([undefined]). *)
Definition jsval : Type := option json.

Module Js.

(** [obj[key]] on a property list. *)
Fixpoint get (props : list (string * json)) (key : string) : jsval :=
  match props with
  | [] => None
  | (k, v) :: rest => if String.eqb k key then Some v else get rest key
  end.

Fixpoint index_from (i : nat) (items : list json) : list (string * json) :=
  match items with
  | [] => []
  | v :: rest => (Str.of_Z (Z.of_nat i), v) :: index_from (S i) rest
  end.

(** [Object.entries(v)] for a value with [typeof v === "object"] that is
    not [null]: the properties of an object, the indexed elements of an
    array. *)
Definition entries (v : json) : option (list (string * json)) :=
  match v with
  | JObj props => Some props
  | JArr items => Some (index_from 0 items)
  | _ => None
  end.

(** [v ?? w] tests for [null] and [undefined]. *)
Definition nullish (v : jsval) : bool :=
  match v with
  | None | Some JNull => true
  | _ => false
  end.

Definition coalesce (v w : jsval) : jsval := if nullish v then w else v.

(** Truthiness. *)
Definition truthy (v : jsval) : bool :=
  match v with
  | None | Some JNull => false
  | Some (JBool b) => b
  | Some (JNum n) => Num.truthy n
  | Some (JStr s) => Str.nonempty s
  | Some (JArr _) | Some (JObj _) => true
  end.

End Js.

Infix "??" := Js.coalesce (at level 75, right associativity).

(** Built-in functions of the language that the program calls and whose
    definition is the language standard's. *)
Record Builtins : Type := {
  (** [parseFloat(s)] *)
  parseFloat : string -> num;
  (** [new Date(s).getTime()]; [None] stands for [NaN] (an invalid date). *)
  Date_getTime : string -> option Z;
  (** [String(n)] for a number. *)
  Number_toString : num -> string
}.

Section WithBuiltins.
Variable B : Builtins.

(** String conversion of a value inside a template literal. *)
Fixpoint ToString (v : json) : string :=
  match v with
  | JNull => "null"
  | JBool true => "true"
  | JBool false => "false"
  | JNum n => Number_toString B n
  | JStr s => s
  | JArr items =>
      Str.join ","
        (map (fun e => match e with JNull => "" | _ => ToString e end) items)
  | JObj _ => "[object Object]"
  end.

(* ===================================================================== *)
(** * src/claude/api.ts                                                    *)
(* ===================================================================== *)

(** [interface UsageLimit].  The fields [type] and [resetAt] are filled by
    unchecked casts ([as string]); they hold whatever value the payload
    has. *)
Record UsageLimit : Type := {
  type : json;
  percentUsed : num;
  resetAt : json
}.

Record ClaudeUsageResponse : Type := {
  limits : list UsageLimit;
  highestPercent : num
}.

Definition toNumber (val : jsval) : option num :=
  match val with
  | Some (JNum n) => if isNaN n then None else Some n
  | Some (JStr s) =>
      let n := parseFloat B s in
      if isNaN n then None else Some n
  | _ => None
  end.

(** [a ?? b] on [number | null]. *)
Definition orElse {A} (a b : option A) : option A :=
  match a with
  | Some _ => a
  | None => b
  end.

(** The value of [rawPercent] in [parseUsageEntry]. *)
Definition rawPercentOf (entry : list (string * json)) : option num :=
  orElse (toNumber (Js.get entry "utilization"))
 (orElse (toNumber (Js.get entry "percentUsed"))
 (orElse (toNumber (Js.get entry "percent_used"))
 (orElse (toNumber (Js.get entry "percentage"))
         (toNumber (Js.get entry "usage_percentage"))))).

Definition parseUsageEntry (entry : list (string * json))
    (fallbackType : option string) : option UsageLimit :=
  match rawPercentOf entry with
  | None => None
  | Some rawPercent =>
      let percent :=
        if (rawPercent >? 1)%num then (rawPercent / 100)%num else rawPercent in
      let type :=
        Js.get entry "type" ?? Js.get entry "name" ??
        Js.get entry "limit_type" ?? option_map JStr fallbackType ??
        Some (JStr "unknown") in
      let resetAt :=
        Js.get entry "resetAt" ?? Js.get entry "reset_at" ??
        Js.get entry "resets_at" ?? Js.get entry "resetsAt" ??
        Js.get entry "expires_at" ?? Some JNull in
      Some {| type := match type with Some t => t | None => JStr "unknown" end;
              percentUsed := percent;
              resetAt := match resetAt with Some r => r | None => JNull end |}
  end.

(** [l.type.toLowerCase().includes(w1) || l.type.toLowerCase().includes(w2)];
    [None] is the [TypeError] raised when [l.type] is not a string. *)
Definition typeIncludes (words : list string) (l : UsageLimit) : option bool :=
  match type l with
  | JStr s => Some (existsb (Str.includes (Str.toLowerCase s)) words)
  | _ => None
  end.

(** [xs.find(p)] for a predicate that may raise. *)
Fixpoint findM {A} (p : A -> option bool) (xs : list A) : option (option A) :=
  match xs with
  | [] => Some None
  | a :: rest =>
      match p a with
      | None => None
      | Some true => Some (Some a)
      | Some false => findM p rest
      end
  end.

(** [xs.filter(p)] for a predicate that may raise. *)
Fixpoint filterM {A} (p : A -> option bool) (xs : list A) : option (list A) :=
  match xs with
  | [] => Some []
  | a :: rest =>
      match p a with
      | None => None
      | Some b =>
          match filterM p rest with
          | None => None
          | Some r => Some (if b then a :: r else r)
          end
      end
  end.

(** The loop over the elements of an array response. *)
Fixpoint parseArray (raw : list json) : list UsageLimit :=
  match raw with
  | [] => []
  | entry :: rest =>
      match Js.entries entry with
      | Some props =>
          match parseUsageEntry props None with
          | Some limit => limit :: parseArray rest
          | None => parseArray rest
          end
      | None => parseArray rest
      end
  end.

Definition isPercentKey (key : string) : bool :=
  String.eqb key "percentUsed" || String.eqb key "percent_used"
  || String.eqb key "percentage".

(** The loop over [Object.keys(obj)], with its [break]. *)
Fixpoint parseKeys (obj : list (string * json)) (keys : list string)
  : list UsageLimit :=
  match keys with
  | [] => []
  | key :: rest =>
      let nested :=
        match Js.get obj key with
        | Some (JObj val) =>
            match parseUsageEntry val (Some key) with
            | Some limit => [limit]
            | None => []
            end
        | _ => []
        end in
      if isPercentKey key then
        match parseUsageEntry obj None with
        | Some limit => nested ++ [limit]
        | None => nested ++ parseKeys obj rest
        end
      else nested ++ parseKeys obj rest
  end.

Definition collectLimits (raw : json) : list UsageLimit :=
  match raw with
  | JArr items => parseArray items
  | JObj obj => parseKeys obj (map fst obj)
  | _ => []
  end.

(** The choice of the limit that drives the light, from the parsed
    limits. *)
Definition pickHighest (limits : list UsageLimit) : option num :=
  match findM (typeIncludes ["five_hour"; "five hour"]) limits with
  | None => None
  | Some fiveHour =>
      match findM (typeIncludes ["seven_day"; "seven day"]) limits with
      | None => None
      | Some sevenDay =>
          let limitsForHighest :=
            match orElse fiveHour sevenDay with
            | Some primary => Some [primary]
            | None =>
                filterM (fun l => option_map negb (typeIncludes ["extra"] l))
                        limits
            end in
          match limitsForHighest with
          | None => None
          | Some [] => Some (Fin 0)
          | Some ls => Some (Math_max_list (map percentUsed ls))
          end
      end
  end.

(** [parseUsageResponse(raw)]; [None] when it raises. *)
Definition parseUsageResponse (raw : json) : option ClaudeUsageResponse :=
  let limits := collectLimits raw in
  match pickHighest limits with
  | None => None
  | Some h => Some {| limits := limits; highestPercent := h |}
  end.

End WithBuiltins.

(* ===================================================================== *)
(** * src/daemon/usage.ts                                                  *)
(* ===================================================================== *)

Section Usage.
Variable B : Builtins.

(** [interface UsageResult] *)
Record UsageResult : Type := {
  count : nat;
  percentage : num
}.

(** [readFileSync(logPath, "utf-8").split("\n").filter(Boolean)] *)
Definition logLines (content : string) : list string :=
  filter Str.nonempty (Str.split Str.newline content).

(** The test both filters apply to a line:
    [!isNaN(ts) && ts >= cutoff] with [ts = new Date(line.trim()).getTime()]. *)
Definition isRecent (cutoff : num) (line : string) : bool :=
  match Date_getTime B (Str.trim line) with
  | None => false
  | Some ts => (Num.of_Z ts >=? cutoff)%num
  end.

(** [calculateUsage(logPath, windowMs, maxPrompts)]: [file] is the content
    of the file at [logPath], or [None] when it does not exist; [now] is
    the value [Date.now()] returns. *)
Definition calculateUsage (file : option string) (now : Z)
    (windowMs maxPrompts : num) : UsageResult :=
  match file with
  | None => {| count := 0; percentage := Fin 0 |}
  | Some content =>
      let cutoff := (Num.of_Z now - windowMs)%num in
      let lines := logLines content in
      let recentEntries := filter (isRecent cutoff) lines in
      let count := List.length recentEntries in
      let percentage := Math_min (Num.of_nat count / maxPrompts)%num (Fin 1) in
      {| count := count; percentage := percentage |}
  end.

(** [trimLog(logPath, windowMs)]: returns the file as it is left. *)
Definition trimLog (file : option string) (now : Z) (windowMs : num)
  : option string :=
  match file with
  | None => None
  | Some content =>
      let cutoff := (Num.of_Z now - windowMs * Fin 2)%num in
      let lines := logLines content in
      let kept := filter (isRecent cutoff) lines in
      Some (Str.join Str.nl kept
            ++ (if (0 <? List.length kept)%nat then Str.nl else ""))
  end.

End Usage.

(** A concrete [Builtins] for the examples.  [Date_getTime] reads the
    format [toISOString] writes, [YYYY-MM-DDTHH:mm:ss.sssZ], which is the
    format of the lines the prompt hook appends, and rejects everything
    else; [parseFloat] reads a decimal literal; [Number_toString] prints
    integers, [NaN] and the infinities, which are the values of
    [Math.round] and of a count (a fraction is cut to its integer part:
    the examples print none). *)
Module Std.

(** Days from 1970-01-01 to the given civil date. *)
Definition daysFromCivil (y m d : Z) : Z :=
  let y' := if (m <=? 2)%Z then (y - 1)%Z else y in
  let era := (y' / 400)%Z in
  let yoe := (y' - era * 400)%Z in
  let mp := ((m + 9) mod 12)%Z in
  let doy := ((153 * mp + 2) / 5 + d - 1)%Z in
  let doe := (yoe * 365 + yoe / 4 - yoe / 100 + doy)%Z in
  (era * 146097 + doe - 719468)%Z.

Definition daysInMonth (y m : Z) : Z :=
  if (m =? 2)%Z then
    if ((y mod 4 =? 0) && (negb (y mod 100 =? 0) || (y mod 400 =? 0)))%Z
    then 28 + 1 else 28
  else if ((m =? 4) || (m =? 6) || (m =? 9) || (m =? 11))%Z then 30
  else 31.

Definition allDigits (s : string) : bool :=
  Str.nonempty s &&
  forallb (fun a => match Str.digit_of a with Some _ => true | None => false end)
          (list_ascii_of_string s).

(** A field of exactly [n] decimal digits starting at position [i]. *)
Definition field (s : string) (i n : nat) : option Z :=
  let f := substring i n s in
  if ((String.length f =? n)%nat && allDigits f)%bool
  then Str.digits None f else None.

Definition charAt (s : string) (i : nat) : option ascii := String.get i s.

Definition isChar (s : string) (i : nat) (c : ascii) : bool :=
  match charAt s i with
  | Some a => Ascii.eqb a c
  | None => false
  end.

Definition getTime (s : string) : option Z :=
  if ((String.length s =? 24)%nat
      && isChar s 4 "-" && isChar s 7 "-" && isChar s 10 "T"
      && isChar s 13 ":" && isChar s 16 ":" && isChar s 19 "."
      && isChar s 23 "Z")%bool
  then
    match field s 0 4, field s 5 2, field s 8 2,
          field s 11 2, field s 14 2, field s 17 2, field s 20 3 with
    | Some y, Some mo, Some d, Some h, Some mi, Some sec, Some ms =>
        if ((1 <=? mo) && (mo <=? 12) && (1 <=? d) && (d <=? daysInMonth y mo)
            && (h <=? 23) && (mi <=? 59) && (sec <=? 59))%Z
        then Some ((((daysFromCivil y mo d * 24 + h) * 60 + mi) * 60 + sec)
                   * 1000 + ms)%Z
        else None
    | _, _, _, _, _, _, _ => None
    end
  else None.

(** The longest run of decimal digits at the head of [s]: its value, its
    length, and what follows it. *)
Fixpoint spanDigits (value : Z) (len : nat) (s : string) : Z * nat * string :=
  match s with
  | EmptyString => (value, len, s)
  | String a s' =>
      match Str.digit_of a with
      | Some d => spanDigits (10 * value + d) (S len) s'
      | None => (value, len, s)
      end
  end.

(** The exponent part [e[+-]digits] at the head of [s], 0 when there is
    none. *)
Definition exponentOf (s : string) : Z :=
  match s with
  | String c r =>
      if (Ascii.eqb c "e" || Ascii.eqb c "E")%bool then
        let '(neg, r') :=
          match r with
          | String "-" r' => (true, r')
          | String "+" r' => (false, r')
          | _ => (false, r)
          end in
        let '(v, n, _) := spanDigits 0 0 r' in
        if (n =? 0)%nat then 0%Z else if neg then (- v)%Z else v
      else 0%Z
  | EmptyString => 0%Z
  end.

Definition pow10 (e : Z) : Q :=
  if (0 <=? e)%Z then inject_Z (10 ^ e) else (1 # Z.to_pos (10 ^ (- e))).

(** An unsigned decimal literal at the head of [s]: [Infinity], or digits
    with an optional fraction and exponent. *)
Definition unsignedDecimal (s : string) : num :=
  if String.prefix "Infinity" s then PInf else
  let '(i, ni, r) := spanDigits 0 0 s in
  let '(f, nf, r') :=
    match r with
    | String "." r' => spanDigits 0 0 r'
    | _ => (0%Z, 0%nat, r)
    end in
  if ((ni =? 0) && (nf =? 0))%nat then NaN
  else
    let mantissa :=
      (inject_Z i + inject_Z f * pow10 (- Z.of_nat nf))%Q in
    Fin (Qred (mantissa * pow10 (exponentOf r'))).

(** [parseFloat(s)], exact instead of rounded to binary64. *)
Definition parseDecimal (s : string) : num :=
  match Str.trimStart s with
  | String "-" r => Num.neg (unsignedDecimal r)
  | String "+" r => unsignedDecimal r
  | r => unsignedDecimal r
  end.

Definition showNum (n : num) : string :=
  match n with
  | NaN => "NaN"
  | PInf => "Infinity"
  | NInf => "-Infinity"
  | Fin q => Str.of_Z (Qfloor q)
  end.

Definition std : Builtins := {|
  parseFloat := parseDecimal;
  Date_getTime := getTime;
  Number_toString := showNum
|}.

End Std.

Import Std.

(* ===================================================================== *)
(** * src/types.ts and src/hue/light.ts                                    *)
(* ===================================================================== *)

Record BridgeConfig : Type := { ip : string; username : string }.
Record LightConfig : Type := { id : num; name : string }.
Record ColorConfig : Type := { colors_start : CieXY num; colors_end : CieXY num }.
Record BrightnessConfig : Type := { brightness_start : num; brightness_end : num }.
Record UsageConfig : Type := { maxPrompts : num; windowMs : num }.
Record DaemonConfig : Type := { transitionMs : num; pollIntervalMs : num }.
Record ClaudeAuthConfig : Type := { cookie : string; orgId : string }.

Record ClaudeHueConfig : Type := {
  bridge : BridgeConfig;
  light : LightConfig;
  colors : ColorConfig;
  brightness : BrightnessConfig;
  usage : UsageConfig;
  daemon : DaemonConfig;
  claude : option ClaudeAuthConfig
}.

(** The request [setLightColor] sends: the address of the light and the
    body [{ on: true, xy: [x, y], bri, transitiontime }]. *)
Record HueRequest : Type := {
  req_ip : string;
  req_username : string;
  req_light : num;
  req_xy : CieXY num;
  req_bri : num;
  req_transitiontime : num
}.

Definition lightRequest (bridgeIp username : string) (lightId : num)
    (xy : CieXY num) (brightness transitionMs : num) : HueRequest :=
  let bri :=
    Math_max (Fin 1)
      (Math_min (Fin 254) (Math_round (brightness / 100 * Fin 254)%num)) in
  let transitiontime := Math_round (transitionMs / 100)%num in
  {| req_ip := bridgeIp; req_username := username; req_light := lightId;
     req_xy := xy; req_bri := bri; req_transitiontime := transitiontime |}.

(* ===================================================================== *)
(** * src/daemon/daemon.ts                                                 *)
(* ===================================================================== *)

Definition EXTENSION_PORT : Z := 7684.
Definition USAGE_STALE_MS : Z := 5 * 60 * 1000.

Inductive RemoteSource : Type := extension | oauth | api.

(** ["extension" | "oauth" | "api" | "local"] *)
Inductive Source : Type :=
| remote (s : RemoteSource)
| local.

(** The type of the variable [remoteUsage]. *)
Record RemoteUsage : Type := {
  ru_percentage : num;
  ru_details : string;
  receivedAt : Z;
  ru_source : RemoteSource
}.

(** The result of [getUsagePercentage]. *)
Record Resolved : Type := {
  r_percentage : num;
  r_source : Source;
  r_details : string
}.

(** Lines written to the console, by content. *)
Inductive ConsoleLine : Type :=
| AlreadyRunning
| DaemonStarted
| PortInUse
| UsageSourceOAuth
| UsageSourceCookie
| UsageSourceLocal
| Updated (at_ : Z) (r : Resolved) (color : CieXY num) (bri : num)
| UpdateFailed (at_ : Z)
| WatchFailed
| Stopping.

(** What a handler does to the outside. *)
Inductive Event : Type :=
| FetchOAuth (token : string)
| FetchCookie (cookie orgId : string)
| PutLight (req : HueRequest)
| Console (line : ConsoleLine)
| Exit (code : Z).

(** The outside world, as the daemon observes it. *)
Record World : Type := {
  (** the successive values of the system clock, in reading order *)
  clock : nat -> Z;
  (** [process.pid] *)
  ownPid : Z;
  (** [process.kill(pid, 0)] returns without raising *)
  alive : Z -> bool;
  (** [loadConfig()]; [None] when it raises *)
  configFile : option ClaudeHueConfig;
  (** [getClaudeCodeOAuthToken()] *)
  oauthToken : option string;
  (** the JSON body the OAuth usage endpoint answers with; [None] when the
      request fails *)
  oauthResponse : string -> option json;
  (** the same for the cookie endpoint *)
  cookieResponse : string -> string -> option json;
  (** the bridge answers the request without error *)
  bridgeAccepts : HueRequest -> bool;
  (** [watch(USAGE_LOG_PATH, ...)] returns without raising *)
  watchOk : bool;
  (** the port [EXTENSION_PORT] is free *)
  portFree : bool
}.

(** The module-level variables of daemon.ts, the two files under the
    configuration directory, the number of clock readings made and the
    trace of events, oldest first. *)
Record DaemonState : Type := {
  running : bool;
  pollTimer : bool;
  watcher : bool;
  httpServer : bool;
  remoteUsage : option RemoteUsage;
  pidFile : option string;
  usageLog : option string;
  reads : nat;
  trace : list Event
}.

Definition set_running (v : bool) (s : DaemonState) : DaemonState :=
  {| running := v; pollTimer := pollTimer s; watcher := watcher s;
     httpServer := httpServer s; remoteUsage := remoteUsage s;
     pidFile := pidFile s; usageLog := usageLog s; reads := reads s;
     trace := trace s |}.

Definition set_pollTimer (v : bool) (s : DaemonState) : DaemonState :=
  {| running := running s; pollTimer := v; watcher := watcher s;
     httpServer := httpServer s; remoteUsage := remoteUsage s;
     pidFile := pidFile s; usageLog := usageLog s; reads := reads s;
     trace := trace s |}.

Definition set_watcher (v : bool) (s : DaemonState) : DaemonState :=
  {| running := running s; pollTimer := pollTimer s; watcher := v;
     httpServer := httpServer s; remoteUsage := remoteUsage s;
     pidFile := pidFile s; usageLog := usageLog s; reads := reads s;
     trace := trace s |}.

Definition set_httpServer (v : bool) (s : DaemonState) : DaemonState :=
  {| running := running s; pollTimer := pollTimer s; watcher := watcher s;
     httpServer := v; remoteUsage := remoteUsage s;
     pidFile := pidFile s; usageLog := usageLog s; reads := reads s;
     trace := trace s |}.

Definition set_remoteUsage (v : option RemoteUsage) (s : DaemonState)
  : DaemonState :=
  {| running := running s; pollTimer := pollTimer s; watcher := watcher s;
     httpServer := httpServer s; remoteUsage := v;
     pidFile := pidFile s; usageLog := usageLog s; reads := reads s;
     trace := trace s |}.

Definition set_pidFile (v : option string) (s : DaemonState) : DaemonState :=
  {| running := running s; pollTimer := pollTimer s; watcher := watcher s;
     httpServer := httpServer s; remoteUsage := remoteUsage s;
     pidFile := v; usageLog := usageLog s; reads := reads s;
     trace := trace s |}.

Definition set_usageLog (v : option string) (s : DaemonState) : DaemonState :=
  {| running := running s; pollTimer := pollTimer s; watcher := watcher s;
     httpServer := httpServer s; remoteUsage := remoteUsage s;
     pidFile := pidFile s; usageLog := v; reads := reads s;
     trace := trace s |}.

Definition set_reads (v : nat) (s : DaemonState) : DaemonState :=
  {| running := running s; pollTimer := pollTimer s; watcher := watcher s;
     httpServer := httpServer s; remoteUsage := remoteUsage s;
     pidFile := pidFile s; usageLog := usageLog s; reads := v;
     trace := trace s |}.

Definition set_trace (v : list Event) (s : DaemonState) : DaemonState :=
  {| running := running s; pollTimer := pollTimer s; watcher := watcher s;
     httpServer := httpServer s; remoteUsage := remoteUsage s;
     pidFile := pidFile s; usageLog := usageLog s; reads := reads s;
     trace := v |}.

(** Computations over the daemon's state. *)
Definition M (A : Type) : Type := DaemonState -> A * DaemonState.

Definition ret {A} (a : A) : M A := fun s => (a, s).

Definition bind {A C} (m : M A) (k : A -> M C) : M C :=
  fun s => let (a, s') := m s in k a s'.

Declare Scope daemon_scope.
Delimit Scope daemon_scope with daemon.
Notation "x <- m ;; k" := (bind m (fun x => k))
  (at level 61, m at next level, right associativity) : daemon_scope.
Notation "m ;; k" := (bind m (fun _ => k))
  (at level 61, right associativity) : daemon_scope.
Open Scope daemon_scope.

Definition gets {A} (f : DaemonState -> A) : M A := fun s => (f s, s).
Definition modify (f : DaemonState -> DaemonState) : M unit :=
  fun s => (tt, f s).
Definition emit (e : Event) : M unit :=
  modify (fun s => set_trace (trace s ++ [e]) s).
Definition when (b : bool) (m : M unit) : M unit := if b then m else ret tt.

Section Daemon.
Variable B : Builtins.
Variable W : World.

(** [Date.now()], and the clock reading of [new Date()]. *)
Definition Date_now : M Z :=
  fun s => (clock W (reads s), set_reads (S (reads s)) s).

Definition writePid : M unit :=
  modify (set_pidFile (Some (Str.of_Z (ownPid W)))).

Definition removePid : M unit :=
  modify (set_pidFile None).

Definition readPid : M (option Z) :=
  f <- gets pidFile ;;
  ret match f with
      | None => None
      | Some content => Str.parseInt10 (Str.trim content)
      end.

Definition isDaemonRunning : M bool :=
  pid <- readPid ;;
  match pid with
  | None => ret false
  | Some pid =>
      if alive W pid then ret true
      else (removePid ;; ret false)
  end.

(** The first of [utilization], [percentUsed], [percent_used],
    [percentage] whose value has [typeof] ["number"]. *)
Definition numberField (v : list (string * json)) (key : string) : option num :=
  match Js.get v key with
  | Some (JNum n) => Some n
  | _ => None
  end.

Definition extensionRaw (v : list (string * json)) : option num :=
  orElse (numberField v "utilization")
 (orElse (numberField v "percentUsed")
 (orElse (numberField v "percent_used")
         (numberField v "percentage"))).

(** An element of the array [entries] of [parseExtensionUsage]. *)
Record ExtEntry : Type := {
  e_type : string;
  e_pct : num;
  e_reset : jsval
}.

Fixpoint extensionEntries (kvs : list (string * json)) : list ExtEntry :=
  match kvs with
  | [] => []
  | (key, JObj v) :: rest =>
      match extensionRaw v with
      | Some raw =>
          let pct := if (raw >? 1)%num then raw else (raw * 100)%num in
          let reset :=
            Js.get v "resetAt" ?? Js.get v "reset_at" ??
            Js.get v "resets_at" ?? Js.get v "resetsAt" in
          {| e_type := key; e_pct := pct; e_reset := reset |}
            :: extensionEntries rest
      | None => extensionEntries rest
      end
  | _ :: rest => extensionEntries rest
  end.

Definition extensionDetail (e : ExtEntry) : string :=
  let resetInfo :=
    match e_reset e with
    | Some r => if Js.truthy (Some r) then ", resets " ++ ToString B r else ""
    | None => ""
    end in
  e_type e ++ ": " ++ Number_toString B (Math_round (e_pct e)) ++ "%"
    ++ resetInfo.

(** [parseExtensionUsage(data)]: the percentage and the details, or [None]
    for [null]. *)
Definition parseExtensionUsage (data : json) : option (num * string) :=
  match Js.entries data with
  | None => None
  | Some kvs =>
      let entries := extensionEntries kvs in
      match entries with
      | [] => None
      | _ =>
          let highest := Math_max_list (map e_pct entries) in
          let details := Str.join " | " (map extensionDetail entries) in
          Some ((highest / 100)%num, details)
      end
  end.

(** [getUsagePercentage]'s call of [calculateUsage]: the clock is read
    only when the log exists. *)
Definition calculateUsageNow (windowMs maxPrompts : num) : M UsageResult :=
  f <- gets usageLog ;;
  match f with
  | None => ret (calculateUsage B None 0 windowMs maxPrompts)
  | Some content =>
      now <- Date_now ;;
      ret (calculateUsage B (Some content) now windowMs maxPrompts)
  end.

Definition localUsage (config : ClaudeHueConfig) : M Resolved :=
  u <- calculateUsageNow (windowMs (usage config)) (maxPrompts (usage config)) ;;
  ret {| r_percentage := percentage u;
         r_source := local;
         r_details :=
           Number_toString B (Num.of_nat (count u)) ++ "/"
           ++ Number_toString B (maxPrompts (usage config)) ++ " prompts" |}.

Definition getUsagePercentage (config : ClaudeHueConfig) : M Resolved :=
  ru <- gets remoteUsage ;;
  match ru with
  | Some u =>
      now <- Date_now ;;
      if (now - receivedAt u <? USAGE_STALE_MS)%Z then
        ret {| r_percentage := ru_percentage u;
               r_source := remote (ru_source u);
               r_details := ru_details u |}
      else localUsage config
  | None => localUsage config
  end.

(** [fetchUsageViaOAuth(token)] and [fetchUsage(cookie, orgId)]: [None]
    when the call raises, be it in the request or in the parser. *)
Definition fetchUsageViaOAuth (token : string) : M (option ClaudeUsageResponse) :=
  emit (FetchOAuth token) ;;
  ret match oauthResponse W token with
      | Some raw => parseUsageResponse B raw
      | None => None
      end.

Definition fetchUsage (cookie orgId : string) : M (option ClaudeUsageResponse) :=
  emit (FetchCookie cookie orgId) ;;
  ret match cookieResponse W cookie orgId with
      | Some raw => parseUsageResponse B raw
      | None => None
      end.

Definition limitDetail (l : UsageLimit) : string :=
  ToString B (type l) ++ ": "
    ++ Number_toString B (Math_round (percentUsed l * 100)%num) ++ "%"
    ++ (if Js.truthy (Some (resetAt l))
        then ", resets " ++ ToString B (resetAt l) else "").

Definition limitDetails (ls : list UsageLimit) : string :=
  Str.join " | " (map limitDetail ls).

(** The assignment to [remoteUsage] after a fetch that returned limits. *)
Definition storeFetched (src : RemoteSource) (result : ClaudeUsageResponse)
  : M unit :=
  let details := limitDetails (limits result) in
  now <- Date_now ;;
  modify (set_remoteUsage
            (Some {| ru_percentage := highestPercent result;
                     ru_details := details;
                     receivedAt := now;
                     ru_source := src |})).

Definition hasLimits (result : ClaudeUsageResponse) : bool :=
  (0 <? List.length (limits result))%nat.

(** [config.claude?.cookie && config.claude?.orgId] *)
Definition cookieConfigured (config : ClaudeHueConfig)
  : option ClaudeAuthConfig :=
  match claude config with
  | Some c =>
      if (Str.nonempty (cookie c) && Str.nonempty (orgId c))%bool
      then Some c else None
  | None => None
  end.

(** [fetchUsageOnStartup]; each branch that stores a snapshot returns. *)
Definition fetchUsageOnStartup (config : ClaudeHueConfig) : M unit :=
  viaOAuth <-
    match oauthToken W with
    | Some token =>
        result <- fetchUsageViaOAuth token ;;
        match result with
        | Some result =>
            if hasLimits result then
              storeFetched oauth result ;;
              emit (Console UsageSourceOAuth) ;;
              ret true
            else ret false
        | None => ret false
        end
    | None => ret false
    end ;;
  if viaOAuth : bool then ret tt else
  viaCookie <-
    match cookieConfigured config with
    | Some c =>
        result <- fetchUsage (cookie c) (orgId c) ;;
        match result with
        | Some result =>
            if hasLimits result then
              storeFetched api result ;;
              emit (Console UsageSourceCookie) ;;
              ret true
            else ret false
        | None => ret false
        end
    | None => ret false
    end ;;
  if viaCookie : bool then ret tt else
  ru <- gets remoteUsage ;;
  match ru with
  | None => emit (Console UsageSourceLocal)
  | Some _ => ret tt
  end.

(** [setLightColor]: [true] when it returns, [false] when it raises. *)
Definition setLightColor (bridgeIp username : string) (lightId : num)
    (xy : CieXY num) (brightness transitionMs : num) : M bool :=
  let req := lightRequest bridgeIp username lightId xy brightness transitionMs in
  emit (PutLight req) ;;
  ret (bridgeAccepts W req).

Definition updateLight (config : ClaudeHueConfig) : M unit :=
  r <- getUsagePercentage config ;;
  let color :=
    interpolateColor (colors_start (colors config)) (colors_end (colors config))
                     (r_percentage r) in
  let bri :=
    interpolateBrightness (brightness_start (brightness config))
                          (brightness_end (brightness config))
                          (r_percentage r) in
  ok <- setLightColor (ip (bridge config)) (username (bridge config))
          (id (light config)) color bri (transitionMs (daemon config)) ;;
  at_ <- Date_now ;;
  if ok then emit (Console (Updated at_ r color bri))
  else emit (Console (UpdateFailed at_)).

(** The call of [trimLog] on the usage log. *)
Definition trimLogNow (windowMs : num) : M unit :=
  f <- gets usageLog ;;
  match f with
  | None => ret tt
  | Some content =>
      now <- Date_now ;;
      modify (set_usageLog (trimLog B (Some content) now windowMs))
  end.

(** Arming the watcher on the usage log; [quiet] is the poll's variant,
    which does not warn. *)
Definition armWatcher (quiet : bool) : M unit :=
  f <- gets usageLog ;;
  match f with
  | Some _ =>
      if watchOk W then modify (set_watcher true)
      else when (negb quiet) (emit (Console WatchFailed))
  | None => ret tt
  end.

(** The callback of [setInterval]. *)
Definition pollTick (config : ClaudeHueConfig) : M unit :=
  r <- gets running ;;
  if negb r then ret tt else
  ru <- gets remoteUsage ;;
  isStale <-
    match ru with
    | None => ret true
    | Some u =>
        now <- Date_now ;;
        ret (now - receivedAt u >? USAGE_STALE_MS)%Z
    end ;;
  when isStale (
    match oauthToken W with
    | Some token =>
        result <- fetchUsageViaOAuth token ;;
        match result with
        | Some result => when (hasLimits result) (storeFetched oauth result)
        | None => ret tt
        end
    | None => ret tt
    end ;;
    ru <- gets remoteUsage ;;
    match ru, cookieConfigured config with
    | None, Some c =>
        result <- fetchUsage (cookie c) (orgId c) ;;
        match result with
        | Some result => when (hasLimits result) (storeFetched api result)
        | None => ret tt
        end
    | _, _ => ret tt
    end) ;;
  updateLight config ;;
  trimLogNow (windowMs (usage config)) ;;
  w <- gets watcher ;;
  when (negb w) (armWatcher true).

(** The callback of the file watcher. *)
Definition onLogChange (config : ClaudeHueConfig) : M unit :=
  r <- gets running ;;
  when r (updateLight config).

(** The answers of the HTTP server. *)
Inductive Response : Type :=
| NoContent
| UsageAccepted
| UsageRejected (error : string)
| Status (extensionConnected : bool) (lastUpdate : option Z)
| NotFound.

(** [POST /usage]; [body] is the result of [JSON.parse], [None] when it
    raises. *)
Definition postUsage (config : ClaudeHueConfig) (body : option json)
  : M Response :=
  match body with
  | None => ret (UsageRejected "Invalid JSON")
  | Some data =>
      match parseExtensionUsage data with
      | Some (percentage, details) =>
          now <- Date_now ;;
          modify (set_remoteUsage
                    (Some {| ru_percentage := percentage;
                             ru_details := details;
                             receivedAt := now;
                             ru_source := extension |})) ;;
          updateLight config ;;
          ret UsageAccepted
      | None => ret (UsageRejected "Could not parse usage data")
      end
  end.

(** [GET /status] *)
Definition getStatus : M Response :=
  ru <- gets remoteUsage ;;
  ret (Status (match ru with Some _ => true | None => false end)
              (option_map receivedAt ru)).

(** The handler of SIGINT and SIGTERM. *)
Definition shutdown : M unit :=
  r <- gets running ;;
  if negb r then ret tt else
  modify (set_running false) ;;
  emit (Console Stopping) ;;
  modify (set_pollTimer false) ;;
  modify (set_watcher false) ;;
  modify (set_httpServer false) ;;
  removePid ;;
  emit (Exit 0).

Definition startHttpServer : M unit :=
  modify (set_httpServer true) ;;
  when (negb (portFree W)) (emit (Console PortInUse)).

(** How [startDaemon] ends. *)
Inductive StartOutcome : Type :=
| Exited (code : Z)
| ConfigMissing
| Started (config : ClaudeHueConfig).

Definition startDaemon : M StartOutcome :=
  already <- isDaemonRunning ;;
  if already : bool then
    emit (Console AlreadyRunning) ;;
    emit (Exit 1) ;;
    ret (Exited 1)
  else
    match configFile W with
    | None => ret ConfigMissing
    | Some config =>
        writePid ;;
        modify (set_running true) ;;
        emit (Console DaemonStarted) ;;
        startHttpServer ;;
        fetchUsageOnStartup config ;;
        updateLight config ;;
        armWatcher false ;;
        modify (set_pollTimer true) ;;
        ret (Started config)
    end.

(** What the event loop delivers to a started daemon. *)
Inductive Input : Type :=
| Tick
| LogChanged
| PostUsage (body : option json)
| GetStatus
| Signal.

Definition handle (config : ClaudeHueConfig) (i : Input) : M (option Response) :=
  match i with
  | Tick => pollTick config ;; ret None
  | LogChanged => onLogChange config ;; ret None
  | PostUsage body => r <- postUsage config body ;; ret (Some r)
  | GetStatus => r <- getStatus ;; ret (Some r)
  | Signal => shutdown ;; ret None
  end.

End Daemon.

Unset Implicit Arguments.

(* ===================================================================== *)
(** * Facts about numbers                                                  *)
(* ===================================================================== *)

Lemma Qle_bool_false x y : Qle_bool x y = false <-> (y < x)%Q.
Proof.
  split; intro H.
  - apply Qnot_le_lt. intro L. apply Qle_bool_iff in L. congruence.
  - destruct (Qle_bool x y) eqn:E; [|reflexivity].
    apply Qle_bool_iff in E. exfalso. exact (Qlt_not_le _ _ H E).
Qed.

Lemma Qlt_bool_false x y : Qlt_bool x y = false <-> (y <= x)%Q.
Proof.
  unfold Qlt_bool. rewrite negb_false_iff. apply Qle_bool_iff.
Qed.

(** Case analysis on a boolean comparison of rationals, leaving the
    corresponding order fact in the context. *)
Ltac qcase x y :=
  let E := fresh "E" in
  destruct (Qle_bool x y) eqn:E;
  [ apply Qle_bool_iff in E | apply Qle_bool_false in E ].

Lemma eq_refl_num a : (a == a)%num.
Proof. destruct a; simpl; auto. apply Qeq_refl. Qed.

Lemma eq_sym_num a b : (a == b)%num -> (b == a)%num.
Proof. destruct a, b; simpl; auto. apply Qeq_sym. Qed.

Lemma eq_trans_num a b c : (a == b)%num -> (b == c)%num -> (a == c)%num.
Proof.
  destruct a as [| |p|], b as [| |q|], c as [| |r|]; simpl; auto;
    try contradiction.
  intros H1 H2. exact (Qeq_trans _ _ _ H1 H2).
Qed.

Lemma Math_round_eq a b : (a == b)%num -> (Math_round a == Math_round b)%num.
Proof.
  destruct a as [| |p|], b as [| |q|]; try (simpl; tauto).
  intro H. change (p == q)%Q in H.
  change (inject_Z (Qfloor (p + (1 # 2))) == inject_Z (Qfloor (q + (1 # 2))))%Q.
  rewrite H. reflexivity.
Qed.

Lemma Math_round_of_Z z : Math_round (Num.of_Z z) = Num.of_Z z.
Proof.
  unfold Math_round, Num.of_Z. f_equal. f_equal.
  assert (L : (inject_Z z <= inject_Z z + (1 # 2))%Q)
    by (generalize (inject_Z z); intro; lra).
  assert (U : (inject_Z z + (1 # 2) < inject_Z (z + 1))%Q).
  { rewrite inject_Z_plus. change (inject_Z 1) with 1%Q.
    generalize (inject_Z z); intro; lra. }
  pose proof (Qfloor_le (inject_Z z + (1 # 2))) as F1.
  pose proof (Qlt_floor (inject_Z z + (1 # 2))) as F2.
  assert (A : (inject_Z (Qfloor (inject_Z z + (1 # 2))) < inject_Z (z + 1))%Q)
    by (eapply Qle_lt_trans; eassumption).
  assert (C : (inject_Z z < inject_Z (Qfloor (inject_Z z + (1 # 2)) + 1))%Q)
    by (eapply Qle_lt_trans; eassumption).
  rewrite <- Zlt_Qlt in A, C. lia.
Qed.

(** The interval [[0, 1]] of numbers. *)
Definition inUnit (a : num) : Prop := Num.le (Fin 0) a /\ Num.le a (Fin 1).

Lemma inUnit_Fin q : inUnit (Fin q) <-> (0 <= q <= 1)%Q.
Proof.
  unfold inUnit, Num.le; simpl. rewrite !Qle_bool_iff. tauto.
Qed.

Lemma inUnit_finite a : inUnit a -> exists q, a = Fin q /\ (0 <= q <= 1)%Q.
Proof.
  destruct a; unfold inUnit, Num.le; simpl; intros [H1 H2]; try discriminate.
  exists q. rewrite !Qle_bool_iff in *. auto.
Qed.

(* ===================================================================== *)
(** * Interpolation                                                        *)
(* ===================================================================== *)

Section InterpolationFacts.

Lemma clamp01_low t : (t <= 0)%Q -> clamp01 (Fin t) = Fin 0.
Proof.
  intro H. unfold clamp01; simpl. unfold Math_min, Math_max; simpl.
  qcase 1%Q t; [lra|]. simpl.
  qcase t 0%Q; [reflexivity|lra].
Qed.

Lemma clamp01_high t : (1 <= t)%Q -> clamp01 (Fin t) = Fin 1.
Proof.
  intro H. unfold clamp01; simpl. unfold Math_min, Math_max; simpl.
  qcase 1%Q t; [|lra]. reflexivity.
Qed.

Lemma clamp01_inside t :
  (0 <= t <= 1)%Q -> exists c, clamp01 (Fin t) = Fin c /\ (c == t)%Q.
Proof.
  intros [H0 H1]. unfold clamp01; simpl. unfold Math_min, Math_max; simpl.
  qcase 1%Q t; simpl.
  - exists 1%Q. split; [reflexivity|lra].
  - qcase t 0%Q.
    + exists 0%Q. split; [reflexivity|lra].
    + exists t. split; [reflexivity|reflexivity].
Qed.

(** Equality of two chromaticity points, coordinate by coordinate. *)
Definition xyEq (a b : CieXY num) : Prop :=
  (x a == x b)%num /\ (y a == y b)%num.

(** The arithmetic midpoint. *)
Definition midpoint (a b : Q) : Q := ((a + b) / 2)%Q.

End InterpolationFacts.

(** The formula without rounding, on exact rationals: there the start, the
    end and the arithmetic midpoint are met exactly, and brightness is the
    same linear value passed through [Math.round].  Binary64 differs at
    [t = 1] and [t = 0.5]; the laws of the program follow below. *)
Lemma unrounded_interpolation_laws :
  forall (sx sy ex ey bs be : Q) (zs ze : Z),
    let start := {| x := Fin sx; y := Fin sy |} in
    let end_ := {| x := Fin ex; y := Fin ey |} in
    xyEq (interpolateColor start end_ (Fin 0)) start
    /\ xyEq (interpolateColor start end_ (Fin 1)) end_
    /\ xyEq (interpolateColor start end_ (Fin (1 # 2)))
            {| x := Fin (midpoint sx ex); y := Fin (midpoint sy ey) |}
    /\ (forall t, (t <= 0)%Q ->
          interpolateColor start end_ (Fin t)
          = interpolateColor start end_ (Fin 0))
    /\ (forall t, (1 <= t)%Q ->
          interpolateColor start end_ (Fin t)
          = interpolateColor start end_ (Fin 1))
    /\ (interpolateBrightness (Fin bs) (Fin be) (Fin 0)
        == Math_round (Fin bs))%num
    /\ (interpolateBrightness (Fin bs) (Fin be) (Fin 1)
        == Math_round (Fin be))%num
    /\ (interpolateBrightness (Fin bs) (Fin be) (Fin (1 # 2))
        == Math_round (Fin (midpoint bs be)))%num
    /\ (interpolateBrightness (Num.of_Z zs) (Num.of_Z ze) (Fin 0)
        == Num.of_Z zs)%num
    /\ (interpolateBrightness (Num.of_Z zs) (Num.of_Z ze) (Fin 1)
        == Num.of_Z ze)%num
    /\ (forall t, (t <= 0)%Q ->
          interpolateBrightness (Fin bs) (Fin be) (Fin t)
          = interpolateBrightness (Fin bs) (Fin be) (Fin 0))
    /\ (forall t, (1 <= t)%Q ->
          interpolateBrightness (Fin bs) (Fin be) (Fin t)
          = interpolateBrightness (Fin bs) (Fin be) (Fin 1)).
Proof.
  intros sx sy ex ey bs be zs ze start end_.
  assert (C0 : clamp01 (Fin 0) = Fin 0) by reflexivity.
  assert (C1 : clamp01 (Fin 1) = Fin 1) by reflexivity.
  assert (Ch : clamp01 (Fin (1 # 2)) = Fin (1 # 2)) by reflexivity.
  assert (R0 : forall a b : Q,
             (Math_round (Fin a + (Fin b - Fin a) * Fin 0)
              == Math_round (Fin a))%num).
  { intros a b. apply Math_round_eq. simpl. ring. }
  assert (R1 : forall a b : Q,
             (Math_round (Fin a + (Fin b - Fin a) * Fin 1)
              == Math_round (Fin b))%num).
  { intros a b. apply Math_round_eq. simpl. ring. }
  unfold xyEq, interpolateColor, interpolateBrightness, midpoint.
  cbv zeta. subst start end_. cbn [x y].
  repeat split.
  - rewrite C0. simpl. ring.
  - rewrite C0. simpl. ring.
  - rewrite C1. simpl. ring.
  - rewrite C1. simpl. ring.
  - rewrite Ch. simpl. field.
  - rewrite Ch. simpl. field.
  - intros t Ht. rewrite (clamp01_low t Ht), C0. reflexivity.
  - intros t Ht. rewrite (clamp01_high t Ht), C1. reflexivity.
  - rewrite C0. apply R0.
  - rewrite C1. apply R1.
  - rewrite Ch. apply Math_round_eq. simpl. field.
  - rewrite C0. eapply eq_trans_num; [apply R0|].
    change (Fin (inject_Z zs)) with (Num.of_Z zs).
    rewrite Math_round_of_Z. apply eq_refl_num.
  - rewrite C1. eapply eq_trans_num; [apply R1|].
    change (Fin (inject_Z ze)) with (Num.of_Z ze).
    rewrite Math_round_of_Z. apply eq_refl_num.
  - intros t Ht. rewrite (clamp01_low t Ht), C0. reflexivity.
  - intros t Ht. rewrite (clamp01_high t Ht), C1. reflexivity.
Qed.


(* ===================================================================== *)
(** * Interpolation on binary64                                            *)
(* ===================================================================== *)

Section Binary64Facts.

Lemma float_leb_cases (a b : float) :
  (a <=? b)%float = ((a <? b) || (a =? b))%float%bool.
Proof.
  rewrite leb_spec, ltb_spec, eqb_spec. unfold SFleb, SFltb, SFeqb.
  destruct (SFcompare (Prim2SF a) (Prim2SF b)) as [[]|]; reflexivity.
Qed.

Lemma Prim2SF_zero : Prim2SF 0 = S754_zero false.
Proof. vm_compute. reflexivity. Qed.

Lemma Prim2SF_one : Prim2SF 1 = S754_finite false 4503599627370496 (-52).
Proof. vm_compute. reflexivity. Qed.

Lemma Prim2SF_infinity : Prim2SF infinity = S754_infinity false.
Proof. vm_compute. reflexivity. Qed.

Lemma Prim2SF_neg_zero : Prim2SF (-0)%float = S754_zero true.
Proof. vm_compute. reflexivity. Qed.

(** [Math.max(0, Math.min(1, t))] is 1 from 1 on, [Infinity] included. *)
Lemma clamp01_above (t : float) :
  (1 <=? t)%float = true -> clamp01 t = 1%float.
Proof.
  intro H. unfold clamp01.
  cbn [a_max a_min a_zero a_one Binary64.Arith_float].
  unfold Binary64.fmin. rewrite <- float_leb_cases, H. reflexivity.
Qed.

(** It is 0 up to 0, [-Infinity] and [-0] included. *)
Lemma clamp01_below (t : float) :
  (t <=? 0)%float = true -> clamp01 t = 0%float.
Proof.
  intro H. unfold clamp01.
  cbn [a_max a_min a_zero a_one Binary64.Arith_float].
  assert (T : Binary64.fmin 1 t = t).
  { unfold Binary64.fmin. revert H.
    rewrite leb_spec, !ltb_spec, !eqb_spec, Prim2SF_zero, Prim2SF_one.
    unfold SFleb, SFltb, SFeqb, SFcompare.
    destruct (Prim2SF t) as [[]|[]| |[] m e]; try discriminate;
      intros _; reflexivity. }
  rewrite T. unfold Binary64.fmax. revert H.
  rewrite leb_spec, !ltb_spec, !eqb_spec, Prim2SF_zero.
  unfold SFleb, SFltb, SFeqb, SFcompare.
  destruct (Prim2SF t) as [[]|[]| |[] m e]; try discriminate;
    intros _; reflexivity.
Qed.

(** [s + d * 0] is [s]: a finite [d] times 0 is a zero, and adding a zero
    changes nothing but, possibly, the sign of a zero. *)
Lemma lerp_start (s d : float) :
  is_nan s = false -> is_finite d = true -> (s + d * 0 =? s)%float = true.
Proof.
  unfold is_finite, is_nan, is_infinity.
  rewrite !eqb_spec, abs_spec, add_spec, mul_spec, Prim2SF_zero,
    Prim2SF_infinity.
  unfold SF64add, SF64mul, SFadd, SFmul, SFabs, SFeqb, SFcompare.
  destruct (Prim2SF d) as [[]|[]| |[] md ed]; try discriminate; intros Hs _;
    destruct (Prim2SF s) as [[]|[]| |[] ms es]; try discriminate;
    cbn [xorb negb]; rewrite ?Z.compare_refl, ?Pos.compare_cont_refl;
    reflexivity.
Qed.

(** The same up to the bit, when [s] is not the negative zero. *)
Lemma lerp_start_same (s d : float) :
  is_nan s = false -> is_finite d = true -> s <> (-0)%float ->
  (s + d * 0)%float = s.
Proof.
  intros Hs Hd Hz. apply Prim2SF_inj.
  assert (Z : Prim2SF s <> S754_zero true).
  { intro E. apply Hz. apply Prim2SF_inj. rewrite Prim2SF_neg_zero. exact E. }
  revert Hs Hd Z. unfold is_finite, is_nan, is_infinity.
  rewrite !eqb_spec, abs_spec, add_spec, mul_spec, Prim2SF_zero,
    Prim2SF_infinity.
  unfold SF64add, SF64mul, SFadd, SFmul, SFabs, SFeqb, SFcompare.
  destruct (Prim2SF d) as [[]|[]| |[] md ed]; try discriminate; intros Hs _;
    destruct (Prim2SF s) as [[]|[]| |[] ms es]; try discriminate;
    cbn [xorb negb]; intro Z; try reflexivity;
    exfalso; apply Z; reflexivity.
Qed.

End Binary64Facts.

(** [a === b] on binary64, coordinate by coordinate. *)
Definition xyEqb (a b : CieXY float) : bool :=
  ((x a =? x b) && (y a =? y b))%float%bool.




(* ===================================================================== *)
(** * The local fallback calculator                                        *)
(* ===================================================================== *)

Section UsageFacts.
Variable B : Builtins.

(** The window test as the specification words it: the line parses as a
    timestamp [t] and [now - t <= windowMs]. *)
Definition inWindow (now : Z) (windowMs : num) (line : string) : bool :=
  match Date_getTime B (Str.trim line) with
  | None => false
  | Some t => (Num.of_Z now - Num.of_Z t <=? windowMs)%num
  end.

Lemma isRecent_inWindow now w line :
  isRecent B (Num.of_Z now - w)%num line = inWindow now w line.
Proof.
  unfold isRecent, inWindow.
  destruct (Date_getTime B (Str.trim line)) as [t|]; [|reflexivity].
  unfold geb, Num.of_Z.
  destruct w as [| |q|]; simpl; try reflexivity.
  apply eq_true_iff_eq. rewrite !Qle_bool_iff.
  generalize (inject_Z now) (inject_Z t). intros a b. split; intro; lra.
Qed.

Lemma filter_ext_eq {A} (f g : A -> bool) l :
  (forall a, f a = g a) -> filter f l = filter g l.
Proof.
  intro H. induction l as [|a l IH]; simpl; [reflexivity|].
  rewrite H, IH. reflexivity.
Qed.

Lemma Math_min_unit a : Num.le (Fin 0) a -> inUnit (Math_min a (Fin 1)).
Proof.
  unfold Num.le. destruct a as [| |q|]; simpl; try discriminate.
  - intro H. unfold Math_min. simpl. qcase q 1%Q.
    + apply inUnit_Fin. apply Qle_bool_iff in H. lra.
    + apply inUnit_Fin. lra.
  - intros _. unfold Math_min. simpl. apply inUnit_Fin. lra.
Qed.

Lemma div_nonneg (n : nat) m :
  Num.lt (Fin 0) m -> Num.le (Fin 0) (Num.of_nat n / m)%num.
Proof.
  unfold Num.lt, Num.le, Num.of_nat, Num.of_Z.
  destruct m as [| |q|]; simpl; try discriminate.
  - intro H. apply Qlt_bool_iff in H.
    destruct (Qeq_bool q 0) eqn:E.
    + apply Qeq_bool_iff in E. lra.
    + simpl. apply Qle_bool_iff.
      assert (N : (0 <= inject_Z (Z.of_nat n))%Q).
      { rewrite <- (Zle_Qle 0). lia. }
      apply Qle_shift_div_l; [exact H|]. lra.
  - intros _. reflexivity.
Qed.

Lemma zero_div m : Num.lt (Fin 0) m -> (Num.of_nat 0 / m == Fin 0)%num.
Proof.
  unfold Num.lt, Num.of_nat, Num.of_Z.
  destruct m as [| |q|]; simpl; try discriminate.
  - intro H. apply Qlt_bool_iff in H.
    destruct (Qeq_bool q 0) eqn:E.
    + apply Qeq_bool_iff in E. lra.
    + simpl. unfold Qdiv. ring.
  - intros _. reflexivity.
Qed.

Lemma Math_min_zero a : (a == Fin 0)%num -> (Math_min a (Fin 1) == Fin 0)%num.
Proof.
  destruct a as [| |q|]; simpl; try contradiction.
  intro H. unfold Math_min. simpl. qcase q 1%Q; simpl; [exact H|lra].
Qed.

End UsageFacts.




(* ===================================================================== *)
(** * Trimming the log                                                     *)
(* ===================================================================== *)

Section TrimFacts.

(** [s] does not contain the character [c]. *)
Fixpoint freeOf (c : ascii) (s : string) : bool :=
  match s with
  | EmptyString => true
  | String a s' => negb (Ascii.eqb a c) && freeOf c s'
  end.

Lemma split_nonnil c s : Str.split c s <> [].
Proof.
  destruct s as [|a s]; simpl; [discriminate|].
  destruct (Ascii.eqb a c); [discriminate|].
  destruct (Str.split c s); discriminate.
Qed.

Lemma split_freeOf c s : Forall (fun x => freeOf c x = true) (Str.split c s).
Proof.
  induction s as [|a s IH]; simpl.
  - constructor; [reflexivity|constructor].
  - destruct (Ascii.eqb a c) eqn:E.
    + constructor; [reflexivity|exact IH].
    + destruct (Str.split c s) as [|w ws].
      * constructor; [simpl; rewrite E; reflexivity|constructor].
      * inversion IH; subst. constructor; [|assumption].
        simpl. rewrite E. assumption.
Qed.

(** Splitting a line followed by the separator and a rest. *)
Lemma split_line c x rest :
  freeOf c x = true ->
  Str.split c (x ++ String c rest) = x :: Str.split c rest.
Proof.
  induction x as [|a x IH]; simpl; intro H.
  - rewrite Ascii.eqb_refl. reflexivity.
  - apply andb_true_iff in H. destruct H as [Ha Hx].
    apply negb_true_iff in Ha. rewrite Ha.
    rewrite (IH Hx). reflexivity.
Qed.

(** Every line followed by a line feed. *)
Fixpoint unlines (ls : list string) : string :=
  match ls with
  | [] => ""
  | x :: rest => x ++ String Str.newline (unlines rest)
  end.

Lemma append_assoc (a b c : string) : (a ++ b) ++ c = a ++ (b ++ c).
Proof.
  induction a as [|h a IH]; simpl; [reflexivity|]. rewrite IH. reflexivity.
Qed.

Lemma join_nl_unlines x ls :
  Str.join Str.nl (x :: ls) ++ Str.nl = unlines (x :: ls).
Proof.
  revert x. induction ls as [|y ls IH]; intro x.
  - reflexivity.
  - change (Str.join Str.nl (x :: y :: ls))
      with (x ++ Str.nl ++ Str.join Str.nl (y :: ls)).
    rewrite !append_assoc. rewrite IH. reflexivity.
Qed.

Lemma logLines_unlines ls :
  Forall (fun x => freeOf Str.newline x = true) ls ->
  Forall (fun x => Str.nonempty x = true) ls ->
  logLines (unlines ls) = ls.
Proof.
  unfold logLines.
  induction ls as [|x ls IH]; intros F N.
  - reflexivity.
  - inversion F; subst. inversion N; subst.
    cbn [unlines]. rewrite split_line by assumption.
    cbn [filter]. rewrite H3. f_equal. apply IH; assumption.
Qed.

Lemma filter_idem {A} (p : A -> bool) l : filter p (filter p l) = filter p l.
Proof.
  induction l as [|a l IH]; simpl; [reflexivity|].
  destruct (p a) eqn:E; simpl; [rewrite E, IH; reflexivity|exact IH].
Qed.

Lemma Forall_filter {A} (P : A -> Prop) (p : A -> bool) l :
  Forall P l -> Forall P (filter p l).
Proof.
  induction 1; simpl; [constructor|].
  destruct (p x0); [constructor|]; assumption.
Qed.

Lemma Forall_filter_true {A} (p : A -> bool) l :
  Forall (fun a => p a = true) (filter p l).
Proof.
  induction l as [|a l IH]; simpl; [constructor|].
  destruct (p a) eqn:E; [constructor|]; assumption.
Qed.

(** What [trimLog] writes, read back as lines, is what it kept. *)
Lemma logLines_written (p : string -> bool) content :
  let kept := filter p (logLines content) in
  logLines (Str.join Str.nl kept
            ++ (if (0 <? List.length kept)%nat then Str.nl else ""))
  = kept.
Proof.
  intro kept.
  assert (F : Forall (fun x => freeOf Str.newline x = true) kept).
  { apply Forall_filter. apply Forall_filter. apply split_freeOf. }
  assert (N : Forall (fun x => Str.nonempty x = true) kept).
  { apply Forall_filter. apply Forall_filter_true. }
  destruct kept as [|x ls] eqn:E.
  - reflexivity.
  - cbn [List.length Nat.ltb Nat.leb].
    rewrite join_nl_unlines. apply logLines_unlines; assumption.
Qed.

End TrimFacts.

(** C8.  Trimming is idempotent at a fixed reference time: trimming the
    file a trim has left, with the same [windowMs], leaves the same content;
    and on a file that does not exist, [trimLog] writes nothing and raises
    nothing, in the function and in the daemon's call of it. *)
Theorem trimLog_idempotent :
  forall (B : Builtins) (W : World) (file : option string) (now : Z)
         (w : num) (s : DaemonState),
    trimLog B (trimLog B file now w) now w = trimLog B file now w
    /\ trimLog B None now w = None
    /\ trimLogNow B W w (set_usageLog None s) = (tt, set_usageLog None s).
Proof.
  intros B W file now w s. split; [|split; reflexivity].
  destruct file as [content|]; [|reflexivity].
  unfold trimLog at 2. cbv zeta.
  unfold trimLog. cbv zeta.
  rewrite logLines_written. rewrite filter_idem. reflexivity.
Qed.

(* ===================================================================== *)
(** * The remote usage parser                                              *)
(* ===================================================================== *)

Section OrderFacts.

Lemma leb_refl a : isNaN a = false -> (a <=? a)%num = true.
Proof.
  destruct a; simpl; try reflexivity; try discriminate.
  intros _. apply Qle_bool_iff. apply Qle_refl.
Qed.

Lemma leb_trans a b c :
  (a <=? b)%num = true -> (b <=? c)%num = true -> (a <=? c)%num = true.
Proof.
  destruct a as [| |p|], b as [| |q|], c as [| |r|]; simpl;
    try reflexivity; try discriminate.
  rewrite !Qle_bool_iff. apply Qle_trans.
Qed.

Lemma leb_total a b :
  isNaN a = false -> isNaN b = false ->
  (a <=? b)%num = false -> (b <=? a)%num = true.
Proof.
  destruct a as [| |p|], b as [| |q|]; simpl;
    try reflexivity; try discriminate.
  intros _ _ H. apply Qle_bool_false in H. apply Qle_bool_iff. lra.
Qed.

Lemma Math_max_cases a b :
  isNaN a = false -> isNaN b = false ->
  (Math_max a b = a /\ (b <=? a)%num = true)
  \/ (Math_max a b = b /\ (a <=? b)%num = true).
Proof.
  intros Ha Hb. unfold Math_max.
  destruct (b <=? a)%num eqn:E.
  - left. destruct a, b; try discriminate; auto.
  - right. pose proof (leb_total _ _ Hb Ha E).
    destruct a, b; try discriminate; auto.
Qed.

(** [Math.max(...xs)] started from [acc]: the result bounds [acc] and
    every element, and is [acc] or an element. *)
Lemma fold_max_spec xs : forall acc,
  isNaN acc = false ->
  Forall (fun x => isNaN x = false) xs ->
  let r := fold_left Math_max xs acc in
  isNaN r = false
  /\ (acc <=? r)%num = true
  /\ Forall (fun x => (x <=? r)%num = true) xs
  /\ (r = acc \/ In r xs).
Proof.
  induction xs as [|x xs IH]; intros acc Ha Hx; cbn [fold_left].
  - repeat split; auto using leb_refl.
  - inversion Hx; subst.
    destruct (Math_max_cases acc x Ha H1) as [[E L]|[E L]].
    + destruct (IH (Math_max acc x)) as [N [A [F I]]];
        [rewrite E; assumption|assumption|].
      rewrite E in *. repeat split; auto.
      * constructor; [eapply leb_trans; eassumption|assumption].
      * destruct I; [left|right; right]; assumption.
    + destruct (IH (Math_max acc x)) as [N [A [F I]]];
        [rewrite E; assumption|assumption|].
      rewrite E in *. repeat split; auto.
      * eapply leb_trans; eassumption.
      * destruct I as [I|I]; right; [left; symmetry|right]; assumption.
Qed.

Lemma leb_NInf a : isNaN a = false -> (a <=? NInf)%num = true -> a = NInf.
Proof. destruct a; simpl; try discriminate; reflexivity. Qed.

(** The maximum of a non-empty list without [NaN] is an element of the
    list and bounds every element. *)
Lemma Math_max_list_spec xs :
  xs <> [] ->
  Forall (fun x => isNaN x = false) xs ->
  In (Math_max_list xs) xs
  /\ Forall (fun x => Num.le x (Math_max_list xs)) xs.
Proof.
  intros Hne Hx. unfold Math_max_list.
  destruct (fold_max_spec xs NInf eq_refl Hx) as [N [A [F I]]].
  split; [|exact F].
  destruct I as [I|I]; [|exact I].
  destruct xs as [|x xs]; [congruence|].
  inversion F; subst. inversion Hx; subst.
  rewrite I in H1. left. rewrite I. apply leb_NInf; assumption.
Qed.

End OrderFacts.

Section ApiFacts.
Variable B : Builtins.

(** The words the parser looks for in the type of a limit. *)
Definition fiveHour : list string := ["five_hour"; "five hour"].
Definition sevenDay : list string := ["seven_day"; "seven day"].
Definition extra : list string := ["extra"].

(** The type of the limit is a string whose lower case contains one of
    the words. *)
Definition typeNames (words : list string) (l : UsageLimit) : bool :=
  match type l with
  | JStr s => existsb (Str.includes (Str.toLowerCase s)) words
  | _ => false
  end.

Lemma typeIncludes_names words l b :
  typeIncludes words l = Some b -> typeNames words l = b.
Proof.
  unfold typeIncludes, typeNames. destruct (type l); try discriminate.
  intro H. inversion H. reflexivity.
Qed.

Lemma typeIncludes_string words l s :
  type l = JStr s -> typeIncludes words l = Some (typeNames words l).
Proof.
  unfold typeIncludes, typeNames. intros ->. reflexivity.
Qed.

(** [find] returns the first element that satisfies the test. *)
Lemma findM_first words ls r pre l post :
  findM (typeIncludes words) ls = Some r ->
  ls = (pre ++ l :: post)%list ->
  typeNames words l = true ->
  Forall (fun l' => typeNames words l' = false) pre ->
  r = Some l.
Proof.
  revert ls. induction pre as [|a pre IH]; intros ls H -> Hl Hpre.
  - cbn [app findM] in H.
    destruct (typeIncludes words l) as [b|] eqn:E; [|discriminate].
    apply typeIncludes_names in E. rewrite Hl in E. subst b.
    inversion H. reflexivity.
  - inversion Hpre; subst. cbn [app findM] in H.
    destruct (typeIncludes words a) as [b|] eqn:E; [|discriminate].
    apply typeIncludes_names in E. rewrite H2 in E. subst b.
    eapply IH; eauto.
Qed.

Lemma findM_none words ls r :
  findM (typeIncludes words) ls = Some r ->
  Forall (fun l => typeNames words l = false) ls ->
  r = None.
Proof.
  induction ls as [|a ls IH]; intros H F; cbn [findM] in H.
  - inversion H. reflexivity.
  - inversion F; subst.
    destruct (typeIncludes words a) as [b|] eqn:E; [|discriminate].
    apply typeIncludes_names in E. rewrite H2 in E. subst b. auto.
Qed.

Lemma filterM_filter ls r :
  filterM (fun l => option_map negb (typeIncludes extra l)) ls = Some r ->
  r = filter (fun l => negb (typeNames extra l)) ls.
Proof.
  revert r. induction ls as [|a ls IH]; intros r H; cbn [filterM] in H.
  - inversion H. reflexivity.
  - destruct (typeIncludes extra a) as [b|] eqn:E; [|discriminate].
    apply typeIncludes_names in E. cbn [option_map] in H.
    destruct (filterM _ ls) as [r'|]; [|discriminate].
    inversion H. cbn [filter]. rewrite E. rewrite (IH r' eq_refl).
    reflexivity.
Qed.

Lemma findM_total words ls :
  Forall (fun l => exists s, type l = JStr s) ls ->
  exists r, findM (typeIncludes words) ls = Some r.
Proof.
  induction 1 as [|a ls [s Hs] _ [r IH]]; cbn [findM]; [eauto|].
  rewrite (typeIncludes_string words a s Hs).
  destruct (typeNames words a); eauto.
Qed.

Lemma filterM_total ls :
  Forall (fun l => exists s, type l = JStr s) ls ->
  exists r,
    filterM (fun l => option_map negb (typeIncludes extra l)) ls = Some r.
Proof.
  induction 1 as [|a ls [s Hs] _ [r IH]]; cbn [filterM]; [eauto|].
  rewrite (typeIncludes_string extra a s Hs). cbn [option_map].
  rewrite IH. eauto.
Qed.

(** The normalisation of [parseUsageEntry]: a raw value above 1 is divided
    by 100. *)
Definition normalize (rawPercent : num) : num :=
  if (rawPercent >? 1)%num then (rawPercent / 100)%num else rawPercent.

Lemma parseUsageEntry_percent entry fb l :
  parseUsageEntry B entry fb = Some l ->
  exists r, rawPercentOf B entry = Some r /\ percentUsed l = normalize r.
Proof.
  unfold parseUsageEntry.
  destruct (rawPercentOf B entry) as [r|]; [|discriminate].
  intro H. inversion H. exists r. split; reflexivity.
Qed.

Lemma toNumber_notNaN v n : toNumber B v = Some n -> isNaN n = false.
Proof.
  unfold toNumber. destruct v as [[]|]; try discriminate.
  - destruct (isNaN n0) eqn:E; [discriminate|]. intro H; inversion H; subst.
    exact E.
  - destruct (isNaN (parseFloat B s)) eqn:E; [discriminate|].
    intro H; inversion H; subst. exact E.
Qed.

Lemma orElse_some {A} (a b : option A) x :
  orElse a b = Some x -> a = Some x \/ b = Some x.
Proof. destruct a; simpl; auto. Qed.

Lemma rawPercentOf_notNaN entry r :
  rawPercentOf B entry = Some r -> isNaN r = false.
Proof.
  unfold rawPercentOf. intro H.
  repeat (apply orElse_some in H; destruct H as [H|H];
          [eapply toNumber_notNaN; exact H|]).
  eapply toNumber_notNaN; exact H.
Qed.

Lemma normalize_notNaN r : isNaN r = false -> isNaN (normalize r) = false.
Proof.
  unfold normalize. destruct r as [| |q|]; simpl; try discriminate; auto.
  destruct (Qlt_bool 1 q); reflexivity.
Qed.

Lemma parseUsageEntry_notNaN entry fb l :
  parseUsageEntry B entry fb = Some l -> isNaN (percentUsed l) = false.
Proof.
  intro H. apply parseUsageEntry_percent in H. destruct H as [r [Hr ->]].
  apply normalize_notNaN. eapply rawPercentOf_notNaN; eassumption.
Qed.

(** Every limit the parser collects comes from [parseUsageEntry]. *)
Lemma parseArray_from items l :
  In l (parseArray B items) ->
  exists e props, In e items /\ Js.entries e = Some props
                  /\ parseUsageEntry B props None = Some l.
Proof.
  induction items as [|e items IH]; cbn [parseArray]; [contradiction|].
  intro H.
  destruct (Js.entries e) as [props|] eqn:E.
  - destruct (parseUsageEntry B props None) as [l'|] eqn:P.
    + destruct H as [H|H].
      * subst l'. exists e, props. simpl. auto.
      * destruct (IH H) as [e' [p' [I R]]]. exists e', p'. simpl. auto.
    + destruct (IH H) as [e' [p' [I R]]]. exists e', p'. simpl. auto.
  - destruct (IH H) as [e' [p' [I R]]]. exists e', p'. simpl. auto.
Qed.

Lemma parseKeys_from obj keys l :
  In l (parseKeys B obj keys) ->
  parseUsageEntry B obj None = Some l
  \/ exists key val, In key keys /\ Js.get obj key = Some (JObj val)
                     /\ parseUsageEntry B val (Some key) = Some l.
Proof.
  induction keys as [|key keys IH]; cbn [parseKeys]; [contradiction|].
  intro H.
  assert (N : forall l0,
             In l0 (match Js.get obj key with
                    | Some (JObj val) =>
                        match parseUsageEntry B val (Some key) with
                        | Some limit => [limit]
                        | None => []
                        end
                    | _ => []
                    end) ->
             exists val, Js.get obj key = Some (JObj val)
                         /\ parseUsageEntry B val (Some key) = Some l0).
  { intros l0 I. destruct (Js.get obj key) as [[]|]; try contradiction.
    destruct (parseUsageEntry B props (Some key)) eqn:P; [|contradiction].
    destruct I as [I|[]]. subst. eauto. }
  assert (R : In l (parseKeys B obj keys) ->
              parseUsageEntry B obj None = Some l
              \/ exists key0 val, In key0 (key :: keys)
                                  /\ Js.get obj key0 = Some (JObj val)
                                  /\ parseUsageEntry B val (Some key0) = Some l).
  { intro I. destruct (IH I) as [E|[k [v [I1 [G P]]]]]; [left; exact E|].
    right. exists k, v. simpl. auto. }
  destruct (isPercentKey key).
  - destruct (parseUsageEntry B obj None) as [l'|] eqn:P.
    + apply in_app_or in H. destruct H as [H|[H|[]]].
      * destruct (N l H) as [v [G Q]]. right. exists key, v. simpl. auto.
      * left. congruence.
    + apply in_app_or in H. destruct H as [H|H]; [|auto].
      destruct (N l H) as [v [G Q]]. right. exists key, v. simpl. auto.
  - apply in_app_or in H. destruct H as [H|H]; [|auto].
    destruct (N l H) as [v [G Q]]. right. exists key, v. simpl. auto.
Qed.

(** The property lists [parseUsageResponse] and [parseExtensionUsage]
    read a utilization from: the response itself and its members. *)
Definition subObjects (raw : json) : list (list (string * json)) :=
  match raw with
  | JArr items =>
      flat_map (fun e => match Js.entries e with
                         | Some props => [props]
                         | None => []
                         end) items
  | JObj obj =>
      obj :: flat_map (fun kv => match snd kv with
                                 | JObj v => [v]
                                 | _ => []
                                 end) obj
  | _ => []
  end.

Lemma get_In obj key v : Js.get obj key = Some v -> In (key, v) obj.
Proof.
  induction obj as [|[k w] obj IH]; cbn [Js.get]; [discriminate|].
  destruct (String.eqb_spec k key).
  - intro H. inversion H. subst. left. reflexivity.
  - intro H. right. auto.
Qed.

Lemma collectLimits_from raw l :
  In l (collectLimits B raw) ->
  exists props fb, In props (subObjects raw)
                   /\ parseUsageEntry B props fb = Some l.
Proof.
  destruct raw; cbn [collectLimits]; try contradiction.
  - intro H. apply parseArray_from in H. destruct H as [e [props [I [E P]]]].
    exists props, None. split; [|exact P].
    cbn [subObjects]. apply in_flat_map. exists e. split; [exact I|].
    rewrite E. left. reflexivity.
  - intro H. apply parseKeys_from in H.
    destruct H as [P|[key [val [I [G P]]]]].
    + exists props, None. split; [left; reflexivity|exact P].
    + exists val, (Some key). split; [|exact P].
      cbn [subObjects]. right. apply in_flat_map. exists (key, JObj val).
      split; [apply get_In; exact G|left; reflexivity].
Qed.

Lemma collectLimits_notNaN raw :
  Forall (fun l => isNaN (percentUsed l) = false) (collectLimits B raw).
Proof.
  apply Forall_forall. intros l H.
  destruct (collectLimits_from raw l H) as [props [fb [_ P]]].
  eapply parseUsageEntry_notNaN; exact P.
Qed.

End ApiFacts.

(** The parser returns whenever the type of every limit is a string, which
    is the case unless the payload gives [type], [name] or [limit_type] a
    value that is not a string. *)
Lemma parseUsageResponse_total (B : Builtins) (raw : json) :
  Forall (fun l => exists s, type l = JStr s) (collectLimits B raw) ->
  exists h, parseUsageResponse B raw
            = Some {| limits := collectLimits B raw; highestPercent := h |}.
Proof.
  intro F. unfold parseUsageResponse, pickHighest.
  destruct (findM_total fiveHour _ F) as [r5 E5].
  destruct (findM_total sevenDay _ F) as [r7 E7].
  destruct (filterM_total _ F) as [rx Ex].
  change ["five_hour"; "five hour"] with fiveHour.
  change ["seven_day"; "seven day"] with sevenDay.
  change ["extra"] with extra.
  rewrite E5, E7.
  destruct (orElse r5 r7); [eauto|].
  rewrite Ex. destruct rx; eauto.
Qed.

(** C6.  For every response the parser returns: when a limit names the
    five-hour window, the driving percentage is the percentage of the first
    such limit; otherwise, when a limit names the seven-day window, it is
    the percentage of the first such limit; otherwise it is the maximum
    over the limits whose type does not contain "extra" (an element of
    them that bounds them all), and 0 when there is none. *)
Theorem parseUsageResponse_driving_percentage :
  forall (B : Builtins) (raw : json) (resp : ClaudeUsageResponse),
    parseUsageResponse B raw = Some resp ->
    (forall pre l post,
        limits resp = (pre ++ l :: post)%list ->
        typeNames fiveHour l = true ->
        Forall (fun l' => typeNames fiveHour l' = false) pre ->
        highestPercent resp = percentUsed l)
    /\ (Forall (fun l' => typeNames fiveHour l' = false) (limits resp) ->
        forall pre l post,
          limits resp = (pre ++ l :: post)%list ->
          typeNames sevenDay l = true ->
          Forall (fun l' => typeNames sevenDay l' = false) pre ->
          highestPercent resp = percentUsed l)
    /\ (Forall (fun l' => typeNames fiveHour l' = false) (limits resp) ->
        Forall (fun l' => typeNames sevenDay l' = false) (limits resp) ->
        let others :=
          filter (fun l => negb (typeNames extra l)) (limits resp) in
        match others with
        | [] => highestPercent resp = Fin 0
        | _ :: _ =>
            In (highestPercent resp) (map percentUsed others)
            /\ Forall (fun l => Num.le (percentUsed l) (highestPercent resp))
                      others
        end).
Proof.
  intros B raw resp H.
  unfold parseUsageResponse, pickHighest in H.
  change ["five_hour"; "five hour"] with fiveHour in H.
  change ["seven_day"; "seven day"] with sevenDay in H.
  change ["extra"] with extra in H.
  pose proof (collectLimits_notNaN B raw) as NN.
  destruct (findM (typeIncludes fiveHour) (collectLimits B raw))
    as [r5|] eqn:E5; [|discriminate].
  destruct (findM (typeIncludes sevenDay) (collectLimits B raw))
    as [r7|] eqn:E7; [|discriminate].
  assert (Single : forall l : UsageLimit,
             Math_max_list (map percentUsed [l]) = percentUsed l
             \/ isNaN (percentUsed l) = true).
  { intro l. unfold Math_max_list. cbn [map fold_left].
    destruct (percentUsed l); simpl; auto. }
  assert (InNN : forall l, In l (collectLimits B raw) ->
                           isNaN (percentUsed l) = false).
  { apply Forall_forall. exact NN. }
  split; [|split].
  - intros pre l post D N5 P5.
    assert (L : limits resp = collectLimits B raw).
    { destruct (orElse r5 r7); [inversion H; reflexivity|].
      destruct (filterM _ _) as [[|]|]; inversion H; reflexivity. }
    rewrite L in D.
    pose proof (findM_first fiveHour _ r5 pre l post E5 D N5 P5) as ->.
    cbn [orElse] in H. inversion H. cbn [highestPercent].
    destruct (Single l) as [S|S]; [exact S|].
    rewrite InNN in S; [discriminate|]. rewrite D. apply in_elt.
  - intros F5 pre l post D N7 P7.
    assert (L : limits resp = collectLimits B raw).
    { destruct (orElse r5 r7); [inversion H; reflexivity|].
      destruct (filterM _ _) as [[|]|]; inversion H; reflexivity. }
    rewrite L in D, F5.
    pose proof (findM_none fiveHour _ r5 E5 F5) as ->.
    pose proof (findM_first sevenDay _ r7 pre l post E7 D N7 P7) as ->.
    cbn [orElse] in H. inversion H. cbn [highestPercent].
    destruct (Single l) as [S|S]; [exact S|].
    rewrite InNN in S; [discriminate|]. rewrite D. apply in_elt.
  - intros F5 F7.
    assert (L : limits resp = collectLimits B raw).
    { destruct (orElse r5 r7); [inversion H; reflexivity|].
      destruct (filterM _ _) as [[|]|]; inversion H; reflexivity. }
    rewrite L in *.
    pose proof (findM_none fiveHour _ r5 E5 F5) as ->.
    pose proof (findM_none sevenDay _ r7 E7 F7) as ->.
    cbn [orElse] in H.
    destruct (filterM _ (collectLimits B raw)) as [rx|] eqn:Ex;
      [|discriminate].
    apply filterM_filter in Ex. rewrite <- Ex. cbv zeta.
    destruct rx as [|x rx]; inversion H; cbn [highestPercent].
    + reflexivity.
    + assert (NNx : Forall (fun v => isNaN v = false)
                           (map percentUsed (x :: rx))).
      { apply Forall_forall. intros v Hv. apply in_map_iff in Hv.
        destruct Hv as [l [<- Hl]]. apply InNN.
        rewrite Ex in Hl. apply filter_In in Hl. tauto. }
      destruct (Math_max_list_spec (map percentUsed (x :: rx)))
        as [I Fm]; [discriminate|exact NNx|].
      split; [exact I|].
      apply Forall_forall. intros l Hl.
      rewrite Forall_forall in Fm. apply Fm. apply in_map. exact Hl.
Qed.

(** The theorem on a response of the usage endpoint: the five-hour window
    drives the light although the seven-day window is fuller. *)
Lemma parseUsageResponse_prefers_five_hour :
  let raw :=
    JObj [("seven_day", JObj [("utilization", JNum (Fin 80))]);
          ("five_hour", JObj [("utilization", JNum (Fin 10))])] in
  exists resp,
    parseUsageResponse std raw = Some resp
    /\ (highestPercent resp == Fin (1 # 10))%num.
Proof.
  intro raw.
  destruct (parseUsageResponse std raw) as [resp|] eqn:E;
    [|vm_compute in E; discriminate].
  exists resp. split; [reflexivity|].
  destruct (parseUsageResponse_driving_percentage std raw resp E)
    as [Five _].
  assert (L : limits resp = collectLimits std raw).
  { vm_compute in E. inversion E. reflexivity. }
  rewrite (Five [{| type := JStr "seven_day";
                    percentUsed := normalize (Fin 80);
                    resetAt := JNull |}]
                {| type := JStr "five_hour";
                   percentUsed := normalize (Fin 10);
                   resetAt := JNull |}
                []).
  - vm_compute. reflexivity.
  - rewrite L. reflexivity.
  - reflexivity.
  - repeat constructor.
Defined.

(* ===================================================================== *)
(** * The daemon                                                           *)
(* ===================================================================== *)

(** Unfolding of the handlers down to the state they return. *)
Ltac run1 :=
  cbv beta iota zeta delta
    [pollTick updateLight getUsagePercentage localUsage calculateUsageNow
     setLightColor trimLogNow armWatcher fetchUsageViaOAuth fetchUsage
     storeFetched fetchUsageOnStartup postUsage getStatus onLogChange
     shutdown startHttpServer startDaemon isDaemonRunning readPid removePid
     writePid handle bind ret gets modify emit when Date_now
     set_running set_pollTimer set_watcher set_httpServer set_remoteUsage
     set_pidFile set_usageLog set_reads set_trace];
  cbn [running pollTimer watcher httpServer remoteUsage pidFile usageLog
       reads trace fst snd negb r_percentage r_source r_details].

Ltac run := repeat progress run1.

(** Case analysis on the next test the handler makes. *)
Ltac branch :=
  match goal with
  | |- context [match ?c with _ => _ end] =>
      lazymatch c with
      | context [match _ with _ => _ end] => fail
      | _ => destruct c eqn:?
      end
  end;
  run.

(** The fetches recorded in a trace. *)
Definition isAdapterCall (e : Event) : bool :=
  match e with
  | FetchOAuth _ | FetchCookie _ _ => true
  | _ => false
  end.

Definition adapterCalls (t : list Event) : list Event :=
  filter isAdapterCall t.

(** The results a trace reports as applied to the light. *)
Fixpoint applied (t : list Event) : list Resolved :=
  match t with
  | [] => []
  | Console (Updated _ r _ _) :: rest => r :: applied rest
  | _ :: rest => applied rest
  end.

(** [s'] differs from [s] in the clock readings made and in the trace
    only. *)
Definition onlyIO (s s' : DaemonState) : Prop :=
  s' = set_trace (trace s') (set_reads (reads s') s).

Section DaemonFacts.
Variable B : Builtins.
Variable W : World.
Variable config : ClaudeHueConfig.

Lemma getUsagePercentage_onlyIO s :
  onlyIO s (snd (getUsagePercentage B W config s))
  /\ trace (snd (getUsagePercentage B W config s)) = trace s.
Proof.
  destruct s. unfold onlyIO. run. repeat branch; split; reflexivity.
Qed.

Lemma updateLight_onlyIO s :
  onlyIO s (snd (updateLight B W config s))
  /\ adapterCalls (trace (snd (updateLight B W config s)))
     = adapterCalls (trace s).
Proof.
  destruct s. unfold onlyIO, adapterCalls. run.
  repeat branch; rewrite <- ?app_assoc, ?filter_app; cbn [filter isAdapterCall];
    rewrite ?app_nil_r; split; reflexivity.
Qed.

End DaemonFacts.

(** A configuration with the defaults of [src/config/defaults.ts] (green to
    red, full brightness, 45 prompts in 5 hours, one poll a minute) and a
    cookie credential; worlds and states for the examples. *)
Module Example.

Definition green : CieXY num := {| x := Fin (2151 # 10000); y := Fin (7106 # 10000) |}.
Definition red : CieXY num := {| x := Fin (675 # 1000); y := Fin (322 # 1000) |}.

Definition config : ClaudeHueConfig := {|
  bridge := {| ip := "192.168.1.2"; username := "hue-user" |};
  light := {| id := Fin 1; name := "Desk" |};
  colors := {| colors_start := green; colors_end := red |};
  brightness := {| brightness_start := Fin 100; brightness_end := Fin 100 |};
  usage := {| maxPrompts := Fin 45; windowMs := Fin 18000000 |};
  daemon := {| transitionMs := Fin 2000; pollIntervalMs := Fin 60000 |};
  claude := Some {| cookie := "sessionKey=sk-ant-sid01-abc"; orgId := "org-1" |}
|}.

(** A response of the usage endpoint. *)
Definition usagePayload (fiveHour sevenDay : Q) : json :=
  JObj [("five_hour", JObj [("utilization", JNum (Fin fiveHour))]);
        ("seven_day", JObj [("utilization", JNum (Fin sevenDay))])].

(** A world whose clock shows [now]: a Claude Code token is present but
    the OAuth request fails; the cookie endpoint would answer. *)
Definition world (now : Z) : World := {|
  clock := fun _ => now;
  ownPid := 4242;
  alive := fun pid => (pid =? 4000)%Z;
  configFile := Some config;
  oauthToken := Some "sk-ant-oat01-xyz";
  oauthResponse := fun _ => None;
  cookieResponse := fun _ _ => Some (usagePayload 42 17);
  bridgeAccepts := fun _ => true;
  watchOk := true;
  portFree := true
|}.

(** A world without any credential or answer. *)
Definition offline (now : Z) : World := {|
  clock := fun _ => now;
  ownPid := 4242;
  alive := fun pid => (pid =? 4000)%Z;
  configFile := Some config;
  oauthToken := None;
  oauthResponse := fun _ => None;
  cookieResponse := fun _ _ => None;
  bridgeAccepts := fun _ => true;
  watchOk := true;
  portFree := true
|}.

(** A started daemon holding the snapshot [ru], with no usage log. *)
Definition started (ru : option RemoteUsage) : DaemonState := {|
  running := true;
  pollTimer := true;
  watcher := false;
  httpServer := true;
  remoteUsage := ru;
  pidFile := Some "4242";
  usageLog := None;
  reads := 0;
  trace := []
|}.

(** The state of the files before any daemon runs; [pid] is the content of
    the PID file. *)
Definition fresh (pid : option string) : DaemonState := {|
  running := false;
  pollTimer := false;
  watcher := false;
  httpServer := false;
  remoteUsage := None;
  pidFile := pid;
  usageLog := None;
  reads := 0;
  trace := []
|}.

(** A snapshot received at time 0. *)
Definition snapshot (src : RemoteSource) : RemoteUsage := {|
  ru_percentage := Fin (1 # 2);
  ru_details := "five_hour: 50%";
  receivedAt := 0;
  ru_source := src
|}.

End Example.

(** C7.  On a poll tick of a running daemon whose snapshot is still fresh
    when the resolver reads the clock (the clock not running backwards
    between the tick's two readings): no adapter is called, the snapshot
    stays, and what is sent to the light and reported is the snapshot's
    percentage, source and details.  This holds for a snapshot of any
    source, the pushed one in particular. *)
Theorem fresh_snapshot_used_without_fetch :
  forall (B : Builtins) (W : World) (config : ClaudeHueConfig)
         (s : DaemonState) (u : RemoteUsage),
    running s = true ->
    remoteUsage s = Some u ->
    (clock W (reads s) <= clock W (S (reads s)))%Z ->
    (clock W (S (reads s)) - receivedAt u < USAGE_STALE_MS)%Z ->
    let resolved :=
      {| r_percentage := ru_percentage u;
         r_source := remote (ru_source u);
         r_details := ru_details u |} in
    let color :=
      interpolateColor (colors_start (colors config))
                       (colors_end (colors config)) (ru_percentage u) in
    let bri :=
      interpolateBrightness (brightness_start (brightness config))
                            (brightness_end (brightness config))
                            (ru_percentage u) in
    let req :=
      lightRequest (ip (bridge config)) (username (bridge config))
                   (id (light config)) color bri
                   (transitionMs (daemon config)) in
    let at_ := clock W (S (S (reads s))) in
    let s' := snd (pollTick B W config s) in
    fst (getUsagePercentage B W config (set_reads (S (reads s)) s)) = resolved
    /\ adapterCalls (trace s') = adapterCalls (trace s)
    /\ trace s' =
       (trace s ++ [PutLight req;
                    Console (if bridgeAccepts W req
                             then Updated at_ resolved color bri
                             else UpdateFailed at_)])%list
    /\ remoteUsage s' = remoteUsage s.
Proof.
  intros B W config s u Hrun Hru Hmono Hfresh.
  destruct s as [rn pt wt hs ru pf ul rd tr].
  cbn [running remoteUsage reads trace] in *. subst rn ru.
  assert (E1 : (clock W rd - receivedAt u >? USAGE_STALE_MS)%Z = false).
  { rewrite Z.gtb_ltb. apply Z.ltb_ge. lia. }
  assert (E2 : (clock W (S rd) - receivedAt u <? USAGE_STALE_MS)%Z = true).
  { apply Z.ltb_lt. lia. }
  cbv zeta. unfold adapterCalls. run. rewrite E1. run. rewrite !E2. run.
  split; [reflexivity|].
  repeat branch;
    rewrite <- ?app_assoc, ?filter_app; cbn [filter isAdapterCall app];
    rewrite ?app_nil_r; repeat split; reflexivity.
Qed.

(** The theorem on a snapshot pushed four minutes before the tick, with a
    cookie credential configured and a cookie endpoint that would answer. *)
Lemma fresh_push_snapshot_example :
  let s := Example.started (Some (Example.snapshot extension)) in
  let s' := snd (pollTick std (Example.world 240000) Example.config s) in
  adapterCalls (trace s') = []
  /\ map r_source (applied (trace s')) = [remote extension]
  /\ remoteUsage s' = Some (Example.snapshot extension).
Proof.
  intros s s'.
  destruct (fresh_snapshot_used_without_fetch std (Example.world 240000)
              Example.config s (Example.snapshot extension))
    as [_ [A [T R]]].
  - reflexivity.
  - reflexivity.
  - cbn. lia.
  - reflexivity.
  - subst s'. split; [exact A|]. split; [|exact R].
    rewrite T. reflexivity.
Defined.

Section Acquisition.
Variable B : Builtins.
Variable W : World.
Variable config : ClaudeHueConfig.

(** [u] is the snapshot stored on receipt of the pushed payload [data]. *)
Inductive PushReceipt (data : json) : RemoteUsage -> Prop :=
| push_receipt percentage details n :
    parseExtensionUsage B data = Some (percentage, details) ->
    PushReceipt data
      {| ru_percentage := percentage; ru_details := details;
         receivedAt := clock W n; ru_source := extension |}.

(** [u] is the snapshot stored after a fetch that returned limits, by the
    OAuth adapter or by the cookie adapter. *)
Inductive Fetched : RemoteUsage -> Prop :=
| fetched_oauth token raw result n :
    oauthToken W = Some token ->
    oauthResponse W token = Some raw ->
    parseUsageResponse B raw = Some result ->
    hasLimits result = true ->
    Fetched
      {| ru_percentage := highestPercent result;
         ru_details := limitDetails B (limits result);
         receivedAt := clock W n; ru_source := oauth |}
| fetched_cookie c raw result n :
    cookieConfigured config = Some c ->
    cookieResponse W (cookie c) (orgId c) = Some raw ->
    parseUsageResponse B raw = Some result ->
    hasLimits result = true ->
    Fetched
      {| ru_percentage := highestPercent result;
         ru_details := limitDetails B (limits result);
         receivedAt := clock W n; ru_source := api |}.

(** How the input [i] may have produced the snapshot [u]. *)
Definition Acquired (i : Input) (u : RemoteUsage) : Prop :=
  match i with
  | PostUsage (Some data) => PushReceipt data u
  | Tick => Fetched u
  | _ => False
  end.

(** Closes a branch of a handler: the snapshot is the old one, or one of
    the acquisitions. *)
Ltac acquired :=
  first
    [ left; reflexivity
    | right; eexists; split; [reflexivity|];
      first [ eapply push_receipt; eassumption
            | eapply fetched_oauth; eassumption
            | eapply fetched_cookie; eassumption ] ].

Lemma handle_remoteUsage i s :
  let s' := snd (handle B W config i s) in
  remoteUsage s' = remoteUsage s
  \/ exists u, remoteUsage s' = Some u /\ Acquired i u.
Proof.
  destruct s as [rn pt wt hs ru pf ul rd tr].
  destruct i as [| |[data|]| |]; cbv zeta; unfold Acquired; run.
  - repeat branch; acquired.
  - repeat branch; acquired.
  - repeat branch; acquired.
  - left; reflexivity.
  - left; reflexivity.
  - repeat branch; acquired.
Qed.

(** [m] leaves the component [f] of the state as it is. *)
Definition keeps {A X : Type} (f : DaemonState -> X) (m : M A) : Prop :=
  forall s, f (snd (m s)) = f s.

(** [m] leaves the snapshot as it is or stores one that satisfies [Q]. *)
Definition storesOnly {A : Type} (Q : RemoteUsage -> Prop) (m : M A) : Prop :=
  forall s,
    remoteUsage (snd (m s)) = remoteUsage s
    \/ exists u, remoteUsage (snd (m s)) = Some u /\ Q u.

Lemma keeps_bind {A C X} (f : DaemonState -> X) (m : M A) (k : A -> M C) :
  keeps f m -> (forall a, keeps f (k a)) -> keeps f (bind m k).
Proof.
  intros Hm Hk s. unfold bind. destruct (m s) as [a s1] eqn:E.
  rewrite Hk. specialize (Hm s). rewrite E in Hm. exact Hm.
Qed.

Lemma keeps_ret {A X} (f : DaemonState -> X) (a : A) : keeps f (ret a).
Proof. intro s. reflexivity. Qed.

Lemma keeps_modify {X} (f : DaemonState -> X) g :
  (forall s, f (g s) = f s) -> keeps f (modify g).
Proof. intros H s. apply H. Qed.

Lemma storesOnly_keeps {A} Q (m : M A) : keeps remoteUsage m -> storesOnly Q m.
Proof. intros H s. left. apply H. Qed.

Lemma storesOnly_bind {A C} Q (m : M A) (k : A -> M C) :
  storesOnly Q m -> (forall a, storesOnly Q (k a)) -> storesOnly Q (bind m k).
Proof.
  intros Hm Hk s. unfold bind. destruct (m s) as [a s1] eqn:E.
  specialize (Hm s). rewrite E in Hm. cbn [snd] in Hm.
  destruct (Hk a s1) as [K|[u [K Qu]]].
  - rewrite K. exact Hm.
  - right. exists u. auto.
Qed.

(** Proof of [keeps f m] for a handler [m], by cases on its tests. *)
Ltac keeps_by_cases :=
  intros [rn pt wt hs ru pf ul rd tr]; run; repeat branch; reflexivity.

Lemma keeps_isDaemonRunning : keeps remoteUsage (isDaemonRunning W).
Proof. keeps_by_cases. Qed.

Lemma keeps_updateLight :
  keeps remoteUsage (updateLight B W config)
  /\ keeps pidFile (updateLight B W config)
  /\ keeps running (updateLight B W config).
Proof. repeat split; keeps_by_cases. Qed.

Lemma keeps_armWatcher quiet :
  keeps remoteUsage (armWatcher W quiet)
  /\ keeps pidFile (armWatcher W quiet)
  /\ keeps running (armWatcher W quiet).
Proof. repeat split; keeps_by_cases. Qed.

Lemma keeps_startHttpServer :
  keeps remoteUsage (startHttpServer W)
  /\ keeps pidFile (startHttpServer W)
  /\ keeps running (startHttpServer W).
Proof. repeat split; keeps_by_cases. Qed.

Lemma fetchUsageOnStartup_stores :
  storesOnly Fetched (fetchUsageOnStartup B W config).
Proof.
  intros [rn pt wt hs ru pf ul rd tr]. run.
  repeat branch; acquired.
Qed.

Lemma keeps_fetchUsageOnStartup :
  keeps pidFile (fetchUsageOnStartup B W config)
  /\ keeps running (fetchUsageOnStartup B W config).
Proof. split; keeps_by_cases. Qed.

(** The part of [startDaemon] that follows [loadConfig]. *)
Definition startWith : M StartOutcome :=
  writePid W ;;
  modify (set_running true) ;;
  emit (Console DaemonStarted) ;;
  startHttpServer W ;;
  fetchUsageOnStartup B W config ;;
  updateLight B W config ;;
  armWatcher W false ;;
  modify (set_pollTimer true) ;;
  ret (Started config).

Lemma startWith_stores : storesOnly Fetched startWith.
Proof.
  unfold startWith.
  repeat first
    [ apply fetchUsageOnStartup_stores
    | apply storesOnly_keeps;
      first [ apply keeps_ret
            | apply keeps_modify; intros; reflexivity
            | apply keeps_startHttpServer
            | apply keeps_updateLight
            | apply keeps_armWatcher ]
    | apply storesOnly_bind; [|intro] ].
Qed.

Lemma startWith_files s :
  let r := startWith s in
  fst r = Started config
  /\ pidFile (snd r) = Some (Str.of_Z (ownPid W))
  /\ running (snd r) = true.
Proof.
  cbv zeta. unfold startWith.
  split; [|split].
  - unfold bind.
    repeat match goal with
           | |- context [let (_, _) := ?m ?st in _] => destruct (m st)
           end.
    reflexivity.
  - assert (K : forall m : M StartOutcome,
               keeps pidFile m ->
               pidFile (snd (bind (writePid W) (fun _ => m) s))
               = Some (Str.of_Z (ownPid W))).
    { intros m Hm. unfold bind, writePid, modify. rewrite Hm.
      destruct s. reflexivity. }
    apply K.
    repeat first
      [ apply keeps_ret
      | apply keeps_modify; intros; reflexivity
      | apply keeps_startHttpServer
      | apply keeps_updateLight
      | apply keeps_armWatcher
      | apply keeps_fetchUsageOnStartup
      | apply keeps_bind; [|intro] ].
  - assert (K : forall m : M StartOutcome,
               keeps running m ->
               running (snd (bind (writePid W)
                               (fun _ => bind (modify (set_running true))
                                              (fun _ => m)) s))
               = true).
    { intros m Hm. unfold bind, writePid, modify. rewrite Hm.
      destruct s. reflexivity. }
    apply K.
    repeat first
      [ apply keeps_ret
      | apply keeps_modify; intros; reflexivity
      | apply keeps_startHttpServer
      | apply keeps_updateLight
      | apply keeps_armWatcher
      | apply keeps_fetchUsageOnStartup
      | apply keeps_bind; [|intro] ].
Qed.

End Acquisition.

(* ===================================================================== *)
(** * Bounds on the stored percentage                                      *)
(* ===================================================================== *)

Section Bounds.
Variable B : Builtins.

(** A raw utilization between 0 and 100. *)
Definition rawWithin (r : option num) : bool :=
  match r with
  | Some r => ((Fin 0 <=? r) && (r <=? Fin 100))%num
  | None => true
  end.

(** Every utilization the two parsers read from the payload lies between
    0 and 100. *)
Definition utilizationsWithin (raw : json) : bool :=
  forallb (fun props => rawWithin (rawPercentOf B props)
                        && rawWithin (extensionRaw props))
          (subObjects raw).

Lemma normalize_unit r : rawWithin (Some r) = true -> inUnit (normalize r).
Proof.
  unfold rawWithin, normalize, gtb. intro H.
  apply andb_true_iff in H. destruct H as [H0 H1].
  destruct r as [| |q|]; simpl in *; try discriminate.
  apply Qle_bool_iff in H0, H1.
  destruct (Qlt_bool 1 q) eqn:E.
  - simpl. apply inUnit_Fin. unfold Qdiv.
    setoid_replace (/ 100)%Q with (1 # 100)%Q by reflexivity. lra.
  - apply Qlt_bool_false in E. apply inUnit_Fin. lra.
Qed.

Lemma findM_In {A} (p : A -> option bool) xs a :
  findM p xs = Some (Some a) -> In a xs.
Proof.
  induction xs as [|x xs IH]; cbn [findM]; [discriminate|].
  destruct (p x) as [[|]|]; try discriminate.
  - intro H. inversion H. left. reflexivity.
  - intro H. right. auto.
Qed.

(** The driving percentage is 0 or the percentage of one of the limits. *)
Lemma pickHighest_from ls h :
  Forall (fun l => isNaN (percentUsed l) = false) ls ->
  pickHighest ls = Some h ->
  h = Fin 0 \/ exists l, In l ls /\ h = percentUsed l.
Proof.
  intros NN H. unfold pickHighest in H.
  change ["extra"] with extra in H.
  destruct (findM _ ls) as [r5|] eqn:E5; [|discriminate].
  destruct (findM (typeIncludes ["seven_day"; "seven day"]) ls)
    as [r7|] eqn:E7; [|discriminate].
  rewrite Forall_forall in NN.
  assert (One : forall l, In l ls ->
                  Math_max_list (map percentUsed [l]) = percentUsed l).
  { intros l I. specialize (NN l I). unfold Math_max_list.
    cbn [map fold_left]. destruct (percentUsed l); try discriminate;
      reflexivity. }
  destruct r5 as [l5|]; [|destruct r7 as [l7|]]; cbn [orElse] in H.
  - inversion H. right. exists l5.
    apply findM_In in E5. split; [exact E5|]. apply One. exact E5.
  - inversion H. right. exists l7.
    apply findM_In in E7. split; [exact E7|]. apply One. exact E7.
  - destruct (filterM _ ls) as [rx|] eqn:Ex; [|discriminate].
    apply filterM_filter in Ex.
    destruct rx as [|x rx]; inversion H; [left; reflexivity|].
    right.
    destruct (Math_max_list_spec (map percentUsed (x :: rx))) as [I _].
    + discriminate.
    + apply Forall_forall. intros v Hv. apply in_map_iff in Hv.
      destruct Hv as [l [<- Hl]]. apply NN.
      rewrite Ex in Hl. apply filter_In in Hl. tauto.
    + apply in_map_iff in I. destruct I as [l [Hl I]].
      exists l. split; [|symmetry; exact Hl].
      rewrite Ex in I. apply filter_In in I. tauto.
Qed.

Lemma parseUsageResponse_unit raw resp :
  utilizationsWithin raw = true ->
  parseUsageResponse B raw = Some resp ->
  inUnit (highestPercent resp).
Proof.
  intros U H. unfold parseUsageResponse in H.
  destruct (pickHighest (collectLimits B raw)) as [h|] eqn:P; [|discriminate].
  inversion H. cbn [highestPercent].
  destruct (pickHighest_from _ _ (collectLimits_notNaN B raw) P)
    as [->|[l [I ->]]].
  - apply inUnit_Fin. lra.
  - destruct (collectLimits_from B raw l I) as [props [fb [Ip Pe]]].
    apply parseUsageEntry_percent in Pe. destruct Pe as [r [Hr ->]].
    apply normalize_unit.
    unfold utilizationsWithin in U. rewrite forallb_forall in U.
    specialize (U props Ip). apply andb_true_iff in U.
    rewrite Hr in U. tauto.
Qed.

(** The percentage of an entry of [parseExtensionUsage], out of 100. *)
Definition pctWithin (p : num) : Prop :=
  exists q, p = Fin q /\ (0 <= q <= 100)%Q.

Lemma extensionEntries_within kvs :
  (forall key v, In (key, JObj v) kvs -> rawWithin (extensionRaw v) = true) ->
  Forall pctWithin (map e_pct (extensionEntries kvs)).
Proof.
  induction kvs as [|[key val] kvs IH]; intro H; cbn [extensionEntries map].
  - constructor.
  - assert (IH' : Forall pctWithin (map e_pct (extensionEntries kvs))).
    { apply IH. intros k v I. apply (H k v). right. exact I. }
    destruct val; try exact IH'.
    specialize (H key props (or_introl eq_refl)).
    destruct (extensionRaw props) as [raw|]; [|exact IH'].
    cbn [map e_pct]. constructor; [|exact IH'].
    unfold rawWithin in H. apply andb_true_iff in H. destruct H as [H0 H1].
    unfold gtb. destruct raw as [| |q|]; simpl in *; try discriminate.
    apply Qle_bool_iff in H0, H1.
    destruct (Qlt_bool 1 q) eqn:E.
    + exists q. split; [reflexivity|lra].
    + apply Qlt_bool_false in E. exists (q * 100)%Q.
      split; [reflexivity|lra].
Qed.

Lemma index_from_In i items key v :
  In (key, v) (Js.index_from i items) -> In v items.
Proof.
  revert i. induction items as [|w items IH]; intros i; cbn [Js.index_from];
    [contradiction|].
  intros [H|H]; [inversion H; left; reflexivity|right; eauto].
Qed.

Lemma entries_subObjects data kvs key v :
  Js.entries data = Some kvs -> In (key, JObj v) kvs ->
  In v (subObjects data).
Proof.
  destruct data; cbn [Js.entries]; try discriminate; intro H; inversion H;
    subst; intro I; cbn [subObjects].
  - apply index_from_In in I. apply in_flat_map. exists (JObj v).
    split; [exact I|left; reflexivity].
  - right. apply in_flat_map. exists (key, JObj v).
    split; [exact I|left; reflexivity].
Qed.

Lemma parseExtensionUsage_unit data p d :
  utilizationsWithin data = true ->
  parseExtensionUsage B data = Some (p, d) ->
  inUnit p.
Proof.
  intros U H. unfold parseExtensionUsage in H.
  destruct (Js.entries data) as [kvs|] eqn:E; [|discriminate].
  assert (F : Forall pctWithin (map e_pct (extensionEntries kvs))).
  { apply extensionEntries_within. intros key v I.
    unfold utilizationsWithin in U. rewrite forallb_forall in U.
    specialize (U v (entries_subObjects data kvs key v E I)).
    apply andb_true_iff in U. tauto. }
  destruct (extensionEntries kvs) as [|e es] eqn:X; [discriminate|].
  destruct (Math_max_list_spec (map e_pct (e :: es))) as [I _].
  - discriminate.
  - eapply Forall_impl; [|exact F]. intros a [q [-> _]]. reflexivity.
  - rewrite Forall_forall in F. destruct (F _ I) as [q [Eq Hq]].
    rewrite Eq in H. inversion H.
    simpl. apply inUnit_Fin. unfold Qdiv.
    setoid_replace (/ 100)%Q with (1 # 100)%Q by reflexivity. lra.
Qed.

End Bounds.

(** Every stored snapshot has its percentage in [[0, 1]]. *)
Definition snapshotOk (s : DaemonState) : Prop :=
  forall u, remoteUsage s = Some u -> inUnit (ru_percentage u).

Lemma startDaemon_unfold (B : Builtins) (W : World) (s : DaemonState) :
  startDaemon B W s =
  let (already, s1) := isDaemonRunning W s in
  if already : bool then
    (Exited 1,
     set_trace ((trace s1 ++ [Console AlreadyRunning]) ++ [Exit 1]) s1)
  else
    match configFile W with
    | None => (ConfigMissing, s1)
    | Some config => startWith B W config s1
    end.
Proof.
  unfold startDaemon, bind at 1. destruct (isDaemonRunning W s) as [[|] s1].
  - destruct s1. reflexivity.
  - destruct (configFile W); reflexivity.
Qed.

Lemma startDaemon_stores (B : Builtins) (W : World) (s : DaemonState) :
  let s' := snd (startDaemon B W s) in
  remoteUsage s' = remoteUsage s
  \/ exists u config,
       configFile W = Some config
       /\ remoteUsage s' = Some u /\ Fetched B W config u.
Proof.
  cbv zeta. rewrite startDaemon_unfold.
  pose proof (keeps_isDaemonRunning W s) as K.
  destruct (isDaemonRunning W s) as [[|] s1]; cbn [snd] in K.
  - left. destruct s1. exact K.
  - destruct (configFile W) as [config|] eqn:C; [|left; exact K].
    destruct (startWith_stores B W config s1) as [E|[u [E F]]].
    + left. congruence.
    + right. exists u, config. auto.
Qed.

(** C3, as the specification states it, fails: no parser clamps.  A pushed
    utilization of 150 is stored as the percentage 1.5, and the remote
    parser derives 1.5 from the same payload. *)
Lemma stored_percentage_above_one :
  let payload := Example.usagePayload 150 20 in
  let s' := snd (postUsage std (Example.offline 1000) Example.config
                           (Some payload) (Example.started None)) in
  option_map ru_percentage (remoteUsage s') = Some (Fin (150 # 100))
  /\ option_map highestPercent (parseUsageResponse std payload)
     = Some (Fin (150 # 100))
  /\ ~ snapshotOk s'.
Proof.
  cbv zeta. split; [reflexivity|]. split; [reflexivity|].
  intro H. specialize (H _ eq_refl). destruct H as [_ H].
  vm_compute in H. discriminate.
Qed.

(** C3 (amended).  When every utilization in the payloads the daemon
    receives (pushed, or answered to the OAuth and cookie adapters) lies
    between 0 and 100, every snapshot the daemon stores, at startup and in
    every handler, has its percentage in [[0, 1]]. *)
Theorem stored_percentage_in_unit :
  forall (B : Builtins) (W : World) (config : ClaudeHueConfig),
    (forall token raw,
        oauthResponse W token = Some raw -> utilizationsWithin B raw = true) ->
    (forall c o raw,
        cookieResponse W c o = Some raw -> utilizationsWithin B raw = true) ->
    (forall s, snapshotOk s -> snapshotOk (snd (startDaemon B W s)))
    /\ (forall i s,
           (forall data, i = PostUsage (Some data) ->
                         utilizationsWithin B data = true) ->
           snapshotOk s -> snapshotOk (snd (handle B W config i s))).
Proof.
  intros B W config HO HC.
  assert (FU : forall cfg u, Fetched B W cfg u -> inUnit (ru_percentage u)).
  { intros cfg u F. destruct F as [token raw result n _ R P _|c raw result n _ R P _];
      cbn [ru_percentage]; eapply parseUsageResponse_unit; eauto. }
  split.
  - intros s Ok u Hu.
    destruct (startDaemon_stores B W s) as [E|[u' [cfg [_ [E F]]]]].
    + apply Ok. congruence.
    + rewrite E in Hu. inversion Hu; subst. eapply FU; eauto.
  - intros i s Hi Ok u Hu.
    destruct (handle_remoteUsage B W config i s) as [E|[u' [E A]]].
    + apply Ok. congruence.
    + rewrite E in Hu. inversion Hu; subst u'.
      destruct i as [| |[data|]| |]; cbn [Acquired] in A; try contradiction.
      * eapply FU; eauto.
      * destruct A as [p d n P]. cbn [ru_percentage].
        eapply parseExtensionUsage_unit; eauto.
Qed.

(** The theorem on a push of 42% and 17%, in a world whose cookie endpoint
    answers with the same payload. *)
Lemma stored_percentage_in_unit_example :
  snapshotOk
    (snd (handle std (Example.world 1000) Example.config
                 (PostUsage (Some (Example.usagePayload 42 17)))
                 (Example.started None))).
Proof.
  destruct (stored_percentage_in_unit std (Example.world 1000) Example.config)
    as [_ H].
  - intros token raw E. discriminate E.
  - intros c o raw E. inversion E. reflexivity.
  - apply H.
    + intros data E. inversion E. reflexivity.
    + intros u E. discriminate E.
Defined.

(** C2: on a response where the seven-day window is fuller than the
    five-hour window, the push parser stores the maximum, 0.8, while the
    remote parser derives the five-hour value, 0.1. *)
Lemma push_parser_ignores_window_preference :
  let payload := Example.usagePayload 10 80 in
  option_map fst (parseExtensionUsage std payload) = Some (Fin (80 # 100))
  /\ option_map highestPercent (parseUsageResponse std payload)
     = Some (Fin (10 # 100)).
Proof. split; reflexivity. Qed.

(** C1: a running daemon holds an OAuth snapshot that went stale; the
    OAuth request fails, cookie credentials are configured and the cookie
    endpoint would return limits.  The tick calls the OAuth adapter only,
    and applies the local fallback; at startup, in the same world, the
    cookie adapter is called. *)
Lemma pollTick_stale_snapshot_skips_cookie :
  let W := Example.world 360001 in
  let s := Example.started (Some (Example.snapshot oauth)) in
  let s' := snd (pollTick std W Example.config s) in
  option_map hasLimits
    (parseUsageResponse std (Example.usagePayload 42 17)) = Some true
  /\ adapterCalls (trace s') = [FetchOAuth "sk-ant-oat01-xyz"]
  /\ map r_source (applied (trace s')) = [local]
  /\ remoteUsage s' = Some (Example.snapshot oauth)
  /\ adapterCalls
       (trace (snd (fetchUsageOnStartup std W Example.config s)))
     = [FetchOAuth "sk-ant-oat01-xyz";
        FetchCookie "sessionKey=sk-ant-sid01-abc" "org-1"].
Proof. cbv zeta. repeat split; vm_compute; reflexivity. Qed.

(** C9.  When the PID file names a process that [process.kill(pid, 0)]
    reaches, [startDaemon] prints the refusal and exits with status 1, and
    leaves the variables and the files as they were: the PID file still
    names the running daemon and no request went out.  When the process is
    gone, the PID file is removed without a message and startup goes on:
    with a configuration in place the daemon starts, writes its own PID
    and runs. *)
Theorem startDaemon_singleton :
  forall (B : Builtins) (W : World) (s : DaemonState)
         (content : string) (pid : Z),
    pidFile s = Some content ->
    Str.parseInt10 (Str.trim content) = Some pid ->
    (alive W pid = true ->
     startDaemon B W s
     = (Exited 1,
        set_trace (trace s ++ [Console AlreadyRunning; Exit 1]) s))
    /\ (alive W pid = false ->
        isDaemonRunning W s = (false, set_pidFile None s)
        /\ forall config,
            configFile W = Some config ->
            let r := startDaemon B W s in
            fst r = Started config
            /\ pidFile (snd r) = Some (Str.of_Z (ownPid W))
            /\ running (snd r) = true).
Proof.
  intros B W s content pid Hfile Hpid.
  assert (R : forall b, alive W pid = b ->
              isDaemonRunning W s
              = (b, if b then s else set_pidFile None s)).
  { intros b Hb. destruct s as [rn pt wt hs ru pf ul rd tr].
    cbn [pidFile] in Hfile. subst pf. run. rewrite Hpid. run. rewrite Hb.
    destruct b; reflexivity. }
  split; intro Ha; rewrite startDaemon_unfold.
  - rewrite (R true Ha). rewrite <- app_assoc. reflexivity.
  - rewrite (R false Ha). split; [reflexivity|].
    intros config Hc. rewrite Hc. apply startWith_files.
Qed.

(** The theorem on a second start while process 4000 runs the daemon, and
    on a start after process 4001 died leaving its PID file. *)
Lemma startDaemon_singleton_example :
  startDaemon std (Example.world 0) (Example.fresh (Some "4000"))
  = (Exited 1,
     set_trace [Console AlreadyRunning; Exit 1] (Example.fresh (Some "4000")))
  /\ pidFile (snd (startDaemon std (Example.world 0)
                               (Example.fresh (Some "4001"))))
     = Some "4242".
Proof.
  split.
  - apply (startDaemon_singleton std (Example.world 0)
             (Example.fresh (Some "4000")) "4000" 4000 eq_refl eq_refl).
    reflexivity.
  - destruct (startDaemon_singleton std (Example.world 0)
                (Example.fresh (Some "4001")) "4001" 4001 eq_refl eq_refl)
      as [_ Dead].
    destruct (Dead eq_refl) as [_ Go].
    destruct (Go Example.config eq_refl) as [_ [P _]].
    exact P.
Defined.

(** C10.  Resolving never writes the snapshot: [getUsagePercentage] and
    [updateLight] change the clock readings and the trace only.  With a
    stale snapshot stored, the resolver answers from the local count and
    the snapshot stays, so [GET /status] goes on reporting
    [extensionConnected: true] and the time of the last receipt.  A handler
    or the startup changes the snapshot only by storing a pushed payload or
    the result of an OAuth or cookie fetch that returned limits. *)
Theorem resolver_never_writes_snapshot :
  forall (B : Builtins) (W : World) (config : ClaudeHueConfig)
         (s : DaemonState),
    onlyIO s (snd (getUsagePercentage B W config s))
    /\ onlyIO s (snd (updateLight B W config s))
    /\ (forall u,
           remoteUsage s = Some u ->
           (USAGE_STALE_MS <= clock W (reads s) - receivedAt u)%Z ->
           let r := getUsagePercentage B W config s in
           r_source (fst r) = local
           /\ remoteUsage (snd r) = Some u
           /\ fst (getStatus (snd r)) = Status true (Some (receivedAt u))
           /\ fst (getStatus (snd (updateLight B W config s)))
              = Status true (Some (receivedAt u)))
    /\ (forall i,
           let s' := snd (handle B W config i s) in
           remoteUsage s' = remoteUsage s
           \/ exists u, remoteUsage s' = Some u /\ Acquired B W config i u)
    /\ (let s' := snd (startDaemon B W s) in
        remoteUsage s' = remoteUsage s
        \/ exists u cfg,
             configFile W = Some cfg
             /\ remoteUsage s' = Some u /\ Fetched B W cfg u).
Proof.
  intros B W config s.
  destruct (getUsagePercentage_onlyIO B W config s) as [G _].
  destruct (updateLight_onlyIO B W config s) as [U _].
  split; [exact G|]. split; [exact U|].
  split; [|split; [intro i; apply handle_remoteUsage|apply startDaemon_stores]].
  intros u Hu Hstale. cbv zeta.
  assert (L : r_source (fst (getUsagePercentage B W config s)) = local).
  { destruct s as [rn pt wt hs ru pf ul rd tr].
    cbn [remoteUsage reads] in Hu, Hstale. subst ru. run.
    assert (E : (clock W rd - receivedAt u <? USAGE_STALE_MS)%Z = false)
      by (apply Z.ltb_ge; lia).
    rewrite E. run. repeat branch; reflexivity. }
  assert (Kg : remoteUsage (snd (getUsagePercentage B W config s)) = Some u).
  { rewrite G. destruct s. exact Hu. }
  assert (Ku : remoteUsage (snd (updateLight B W config s)) = Some u).
  { rewrite U. destruct s. exact Hu. }
  repeat split; try assumption.
  - unfold getStatus, bind, gets, ret. cbn [fst]. rewrite Kg. reflexivity.
  - unfold getStatus, bind, gets, ret. cbn [fst]. rewrite Ku. reflexivity.
Qed.

(** The theorem six minutes after an OAuth snapshot, offline: the light is
    driven by the local count while the status endpoint reports the
    receipt at time 0. *)
Lemma resolver_never_writes_snapshot_example :
  let W := Example.offline 360000 in
  let s := Example.started (Some (Example.snapshot oauth)) in
  r_source (fst (getUsagePercentage std W Example.config s)) = local
  /\ fst (getStatus (snd (updateLight std W Example.config s)))
     = Status true (Some 0%Z).
Proof.
  intros W s.
  destruct (resolver_never_writes_snapshot std W Example.config s)
    as [_ [_ [H _]]].
  destruct (H (Example.snapshot oauth) eq_refl) as [L [_ [_ S]]].
  - vm_compute. discriminate.
  - split; [exact L | exact S].
Defined.

(* ===================================================================== *)
(** * The repository's tests, on the embedding                             *)
(* ===================================================================== *)

(** color.test.ts: brightness from 100 to 50. *)
Example test_interpolateBrightness :
  interpolateBrightness (Fin 100) (Fin 50) (Fin 0) = Fin 100
  /\ interpolateBrightness (Fin 100) (Fin 50) (Fin 1) = Fin 50
  /\ interpolateBrightness (Fin 100) (Fin 50) (Fin (1 # 2)) = Fin 75
  /\ interpolateBrightness (Fin 100) (Fin 50) (Fin (-1)) = Fin 100
  /\ interpolateBrightness (Fin 100) (Fin 50) (Fin 2) = Fin 50.
Proof. repeat split; reflexivity. Qed.

(** color.test.ts: green to red at [t = 0.5] is the midpoint. *)
Example test_interpolateColor_midpoint :
  xyEq (interpolateColor Example.green Example.red (Fin (1 # 2)))
       {| x := Fin (midpoint (2151 # 10000) (675 # 1000));
          y := Fin (midpoint (7106 # 10000) (322 # 1000)) |}.
Proof. split; vm_compute; reflexivity. Qed.

(** usage.test.ts: a missing log and an empty log count nothing; of an old
    entry, a recent one and one at [now], two are in the window. *)
Example test_calculateUsage :
  let now := 1704103200000%Z in
  let window := Fin 18000000 in
  calculateUsage std None now window (Fin 45)
  = {| count := 0; percentage := Fin 0 |}
  /\ count (calculateUsage std (Some "") now window (Fin 45)) = 0%nat
  /\ count (calculateUsage std
              (Some ("2024-01-01T04:59:00.000Z" ++ Str.nl
                     ++ "2024-01-01T09:59:00.000Z" ++ Str.nl
                     ++ "2024-01-01T10:00:00.000Z" ++ Str.nl))
              now window (Fin 45)) = 2%nat.
Proof. repeat split; reflexivity. Qed.

(** usage.test.ts: [trimLog] removes the entry older than twice the
    window and keeps the other two. *)
Example test_trimLog :
  trimLog std
    (Some ("2023-12-31T19:00:00.000Z" ++ Str.nl
           ++ "2024-01-01T09:59:00.000Z" ++ Str.nl
           ++ "2024-01-01T10:00:00.000Z" ++ Str.nl))
    1704103200000 (Fin 18000000)
  = Some ("2024-01-01T09:59:00.000Z" ++ Str.nl
          ++ "2024-01-01T10:00:00.000Z" ++ Str.nl).
Proof. reflexivity. Qed.

(** The numeric normalisation: a raw 42 becomes 0.42 and a raw 0.42 stays. *)
Example test_normalize :
  (normalize (Fin 42) == Fin (42 # 100))%num
  /\ normalize (Fin (42 # 100)) = Fin (42 # 100).
Proof. split; vm_compute; reflexivity. Qed.

(* ===================================================================== *)
(** * Further properties: the light command                               *)
(* ===================================================================== *)

Section LightFacts.

(** A clamped interpolation parameter is a fraction between 0 and 1, for
    every [t] but [NaN]. *)
Lemma clamp01_unit t :
  isNaN t = false -> exists c, clamp01 t = Fin c /\ (0 <= c <= 1)%Q.
Proof.
  destruct t as [| |q|]; try discriminate; intros _.
  - exists 0%Q. split; [reflexivity|lra].
  - destruct (Qlt_le_dec q 0) as [L|L].
    + exists 0%Q. split; [apply clamp01_low; lra|lra].
    + destruct (Qlt_le_dec 1 q) as [H|H].
      * exists 1%Q. split; [apply clamp01_high; lra|lra].
      * destruct (clamp01_inside q (conj L H)) as [c [E Hc]].
        exists c. split; [exact E|]. rewrite Hc. auto.
  - exists 1%Q. split; [reflexivity|lra].
Qed.

(** [q] lies between [a] and [b], whichever is the larger. *)
Definition between (a b q : Q) : Prop :=
  (a <= q <= b)%Q \/ (b <= q <= a)%Q.

Lemma lerp_between (s e c : Q) :
  (0 <= c <= 1)%Q -> between s e (s + (e + - s) * c).
Proof.
  intros [H0 H1]. unfold between.
  destruct (Qlt_le_dec s e) as [L|L]; [left|right]; split; nra.
Qed.

Lemma round_half (z : Z) : Qfloor (inject_Z z + (1 # 2)) = z.
Proof.
  pose proof (Math_round_of_Z z) as R.
  unfold Math_round, Num.of_Z in R. injection R as R. exact R.
Qed.

Lemma round_between (a b : Z) (q : Q) :
  (inject_Z a <= q <= inject_Z b)%Q ->
  (a <= Qfloor (q + (1 # 2)) <= b)%Z.
Proof.
  intros [L U].
  assert (R : forall z, Qfloor (inject_Z z + (1 # 2)) = z).
  { intro z. pose proof (Math_round_of_Z z) as R.
    unfold Math_round, Num.of_Z in R. injection R as R. exact R. }
  pose proof (R a) as Ra. pose proof (R b) as Rb.
  split.
  - rewrite <- Ra at 1. apply Qfloor_resp_le. lra.
  - rewrite <- Rb at 1. apply Qfloor_resp_le. lra.
Qed.

End LightFacts.



(** X2.  Whatever brightness [setLightColor] is given, short of [NaN]
    (negative, above 100, infinite), the [bri] it sends is an integer
    between 1 and 254, and it is 254 for a brightness of 100 or more. *)
Theorem lightRequest_bri_in_range :
  forall (bridgeIp username : string) (lightId : num) (xy : CieXY num)
         (brightness transitionMs : num),
    isNaN brightness = false ->
    let req := lightRequest bridgeIp username lightId xy brightness
                            transitionMs in
    (exists z, req_bri req = Num.of_Z z /\ (1 <= z <= 254)%Z)
    /\ (Num.le (Fin 100) brightness -> req_bri req = Fin 254).
Proof.
  intros bridgeIp username lightId xy b tr Hb. cbv zeta.
  unfold lightRequest. cbv zeta. cbn [req_bri].
  destruct b as [| |q|]; try discriminate.
  - split; [exists 1%Z; split; [reflexivity|lia]|].
    intro H. discriminate H.
  - set (r := Qfloor (q / 100 * 254 + (1 # 2))).
    assert (E : Math_round (Fin q / 100 * Fin 254)%num = Num.of_Z r)
      by reflexivity.
    rewrite E. unfold Math_min, Math_max, Num.of_Z. simpl.
    split.
    + qcase 254%Q (inject_Z r); simpl.
      * exists 254%Z. split; [reflexivity|lia].
      * qcase (inject_Z r) 1%Q; simpl.
        -- exists 1%Z. split; [reflexivity|lia].
        -- exists r. split; [reflexivity|].
           change 254%Q with (inject_Z 254) in E0.
           change 1%Q with (inject_Z 1) in E1.
           rewrite <- Zlt_Qlt in E0, E1. lia.
    + intro H. unfold Num.le in H. simpl in H. apply Qle_bool_iff in H.
      assert (R : (254 <= r)%Z).
      { subst r. apply Z.le_trans with (Qfloor (inject_Z 254)).
        - rewrite Qfloor_Z. lia.
        - apply Qfloor_resp_le. change (inject_Z 254) with 254%Q.
          unfold Qdiv.
          setoid_replace (/ 100)%Q with (1 # 100)%Q by reflexivity. lra. }
      qcase 254%Q (inject_Z r); simpl; [reflexivity|].
      change 254%Q with (inject_Z 254) in E0. rewrite <- Zlt_Qlt in E0. lia.
  - split; [exists 254%Z; split; [reflexivity|lia]|]. intros _. reflexivity.
Qed.

(** The theorem on a brightness of 250, outside the 0-100 scale. *)
Lemma lightRequest_bri_in_range_example :
  req_bri (lightRequest "192.168.1.2" "u" (Fin 1) Example.green (Fin 250)
                        (Fin 2000)) = Fin 254.
Proof.
  apply (lightRequest_bri_in_range "192.168.1.2" "u" (Fin 1) Example.green
           (Fin 250) (Fin 2000) eq_refl).
  reflexivity.
Defined.

(* ===================================================================== *)
(** * Further properties: the usage log                                    *)
(* ===================================================================== *)

(** The prompt hook, [src/hook/log-prompt.js]:
    [appendFileSync(logPath, new Date().toISOString() + "\n")], where [iso]
    is the string [toISOString] returns.  The file is created when it does
    not exist. *)
Definition logPrompt (file : option string) (iso : string) : option string :=
  Some (match file with Some content => content | None => "" end
        ++ iso ++ Str.nl).

(** A log in which every line is closed by a line feed: the empty file, or
    a file that ends with a line feed. *)
Definition closedLog (file : option string) : Prop :=
  match file with
  | None => True
  | Some content => content = "" \/ exists c, content = c ++ Str.nl
  end.

Section LogFacts.
Variable B : Builtins.

Lemma split_app c (a b : string) :
  Str.split c (a ++ String c b) = (Str.split c a ++ Str.split c b)%list.
Proof.
  induction a as [|h a IH]; cbn [append Str.split].
  - rewrite Ascii.eqb_refl. reflexivity.
  - destruct (Ascii.eqb h c).
    + rewrite IH. reflexivity.
    + rewrite IH. destruct (Str.split c a) as [|w ws] eqn:E.
      * destruct (split_nonnil c a E).
      * reflexivity.
Qed.

Lemma split_free c x : freeOf c x = true -> Str.split c x = [x].
Proof.
  induction x as [|h x IH]; cbn [freeOf Str.split]; [reflexivity|].
  intro H. apply andb_true_iff in H. destruct H as [Hh Hx].
  apply negb_true_iff in Hh. rewrite Hh, (IH Hx). reflexivity.
Qed.

Lemma logLines_app (a b : string) :
  logLines (a ++ Str.nl ++ b) = (logLines a ++ logLines b)%list.
Proof.
  unfold logLines, Str.nl. cbn [append].
  rewrite split_app, filter_app. reflexivity.
Qed.

Lemma logLines_nl (a : string) : logLines (a ++ Str.nl) = logLines a.
Proof.
  unfold logLines, Str.nl. rewrite split_app, filter_app.
  cbn [Str.split filter Str.nonempty]. apply app_nil_r.
Qed.

Lemma logLines_closed content iso :
  closedLog (Some content) ->
  freeOf Str.newline iso = true -> Str.nonempty iso = true ->
  logLines (content ++ iso ++ Str.nl) = (logLines content ++ [iso])%list.
Proof.
  intros C F N.
  assert (L : logLines (iso ++ Str.nl) = [iso]).
  { rewrite logLines_nl. unfold logLines. rewrite (split_free _ _ F).
    cbn [filter]. rewrite N. reflexivity. }
  destruct C as [->|[c ->]].
  - cbn [append]. rewrite L. reflexivity.
  - rewrite append_assoc. rewrite logLines_app, L, logLines_nl. reflexivity.
Qed.

Lemma filter_filter_sub {A} (p q : A -> bool) l :
  (forall a, p a = true -> q a = true) ->
  filter p (filter q l) = filter p l.
Proof.
  intro H. induction l as [|a l IH]; cbn [filter]; [reflexivity|].
  destruct (q a) eqn:Q; cbn [filter].
  - rewrite IH. reflexivity.
  - destruct (p a) eqn:P; [|exact IH].
    rewrite (H a P) in Q. discriminate.
Qed.

(** An entry inside the window is inside the doubled window [trimLog]
    keeps, when the window is not negative. *)
Lemma isRecent_doubled now w line :
  Num.le (Fin 0) w ->
  isRecent B (Num.of_Z now - w)%num line = true ->
  isRecent B (Num.of_Z now - w * Fin 2)%num line = true.
Proof.
  unfold isRecent, Num.le.
  destruct (Date_getTime B (Str.trim line)) as [t|]; [|discriminate].
  unfold geb, Num.of_Z.
  destruct w as [| |q|]; simpl; try discriminate; auto.
  rewrite !Qle_bool_iff. generalize (inject_Z now) (inject_Z t).
  intros a b. lra.
Qed.

End LogFacts.

(** X3.  Trimming does not change what the calculator reports: for every
    window that is not negative, the count and the percentage computed from
    the trimmed log, at the same reading of the clock, are those computed
    from the log as it was. *)
Theorem trimLog_preserves_usage :
  forall (B : Builtins) (file : option string) (now : Z) (w m : num),
    Num.le (Fin 0) w ->
    calculateUsage B (trimLog B file now w) now w m
    = calculateUsage B file now w m.
Proof.
  intros B file now w m Hw.
  destruct file as [content|]; [|reflexivity].
  unfold trimLog. cbv zeta. unfold calculateUsage. cbv zeta.
  rewrite logLines_written.
  rewrite (filter_filter_sub _ _ _
             (fun line => isRecent_doubled B now w line Hw)).
  reflexivity.
Qed.

(** The theorem on the log of usage.test.ts: an entry older than twice the
    window, a recent one and one at [now]. *)
Lemma trimLog_preserves_usage_example :
  count (calculateUsage std
           (trimLog std
              (Some ("2023-12-31T19:00:00.000Z" ++ Str.nl
                     ++ "2024-01-01T09:59:00.000Z" ++ Str.nl
                     ++ "2024-01-01T10:00:00.000Z" ++ Str.nl))
              1704103200000 (Fin 18000000))
           1704103200000 (Fin 18000000) (Fin 100)) = 2%nat.
Proof.
  rewrite (trimLog_preserves_usage std _ 1704103200000 (Fin 18000000)
             (Fin 100) eq_refl).
  reflexivity.
Defined.


(** X5.  One prompt counts once: when the hook appends a timestamp inside
    the window to a closed log (or creates the log), the count the
    calculator reports grows by exactly one, and the log is closed again. *)
Theorem logPrompt_counts_once :
  forall (B : Builtins) (file : option string) (iso : string) (t now : Z)
         (w m : num),
    closedLog file ->
    freeOf Str.newline iso = true ->
    Str.nonempty iso = true ->
    Date_getTime B (Str.trim iso) = Some t ->
    (Num.of_Z now - Num.of_Z t <=? w)%num = true ->
    count (calculateUsage B (logPrompt file iso) now w m)
    = S (count (calculateUsage B file now w m))
    /\ closedLog (logPrompt file iso).
Proof.
  intros B file iso t now w m C F N D I.
  assert (R : isRecent B (Num.of_Z now - w)%num iso = true).
  { rewrite isRecent_inWindow. unfold inWindow. rewrite D. exact I. }
  split.
  - unfold logPrompt, calculateUsage. cbv zeta. cbn [count].
    destruct file as [content|].
    + rewrite (logLines_closed content iso C F N).
      rewrite filter_app, length_app. cbn [filter]. rewrite R.
      cbn [List.length count]. lia.
    + rewrite (logLines_closed "" iso (or_introl eq_refl) F N).
      cbn [logLines Str.split filter Str.nonempty app].
      rewrite R. reflexivity.
  - unfold logPrompt, closedLog. right.
    exists (match file with Some content => content | None => "" end ++ iso).
    rewrite append_assoc. reflexivity.
Qed.

(** The theorem on a log of one entry, five minutes before the hook runs. *)
Lemma logPrompt_counts_once_example :
  count (calculateUsage std
           (logPrompt (Some ("2024-01-01T09:55:00.000Z" ++ Str.nl))
                      "2024-01-01T10:00:00.000Z")
           1704103200000 (Fin 18000000) (Fin 45)) = 2%nat.
Proof.
  destruct (logPrompt_counts_once std
              (Some ("2024-01-01T09:55:00.000Z" ++ Str.nl))
              "2024-01-01T10:00:00.000Z" 1704103200000 1704103200000
              (Fin 18000000) (Fin 45)) as [H _].
  - right. exists "2024-01-01T09:55:00.000Z". reflexivity.
  - reflexivity.
  - reflexivity.
  - reflexivity.
  - reflexivity.
  - exact H.
Defined.

(* ===================================================================== *)
(** * Further properties: the PID file                                     *)
(* ===================================================================== *)

Section PidFacts.

(** The integer a run of decimal digits denotes, read from the left with
    [acc] as the digits read so far. *)
Fixpoint uintValue (acc : Z) (d : Decimal.uint) : Z :=
  match d with
  | Decimal.Nil => acc
  | Decimal.D0 d => uintValue (10 * acc + 0) d
  | Decimal.D1 d => uintValue (10 * acc + 1) d
  | Decimal.D2 d => uintValue (10 * acc + 2) d
  | Decimal.D3 d => uintValue (10 * acc + 3) d
  | Decimal.D4 d => uintValue (10 * acc + 4) d
  | Decimal.D5 d => uintValue (10 * acc + 5) d
  | Decimal.D6 d => uintValue (10 * acc + 6) d
  | Decimal.D7 d => uintValue (10 * acc + 7) d
  | Decimal.D8 d => uintValue (10 * acc + 8) d
  | Decimal.D9 d => uintValue (10 * acc + 9) d
  end.

Lemma digits_string_of_uint d : forall acc,
  Str.digits (Some acc) (NilEmpty.string_of_uint d) = Some (uintValue acc d).
Proof.
  induction d; intro acc; cbn [NilEmpty.string_of_uint Str.digits uintValue];
    try reflexivity; apply IHd.
Qed.

Lemma digits_none_string_of_uint d :
  d <> Decimal.Nil ->
  Str.digits None (NilEmpty.string_of_uint d) = Some (uintValue 0 d).
Proof.
  destruct d; intro H; try congruence;
    cbn [NilEmpty.string_of_uint Str.digits uintValue];
    apply digits_string_of_uint.
Qed.

Lemma uintValue_of_lu d : forall r,
  uintValue (Z.of_N (DecimalPos.Unsigned.of_lu r)) d
  = Z.of_N (DecimalPos.Unsigned.of_lu (Decimal.revapp d r)).
Proof.
  induction d; intro r; cbn [uintValue Decimal.revapp]; try reflexivity;
    rewrite <- IHd; f_equal;
    cbn [DecimalPos.Unsigned.of_lu]; lia.
Qed.

Lemma uintValue_of_uint d : uintValue 0 d = Z.of_N (Pos.of_uint d).
Proof.
  rewrite DecimalPos.Unsigned.of_uint_alt.
  exact (uintValue_of_lu d Decimal.Nil).
Qed.

(** No character of [s] is white space. *)
Definition noWs (s : string) : bool :=
  forallb (fun a => negb (Str.is_ws a)) (list_ascii_of_string s).

Lemma trimEnd_noWs s : noWs s = true -> Str.trimEnd s = s.
Proof.
  unfold noWs. induction s as [|a s IH]; cbn [list_ascii_of_string forallb Str.trimEnd];
    [reflexivity|].
  intro H. apply andb_true_iff in H. destruct H as [Ha Hs].
  rewrite (IH Hs). apply negb_true_iff in Ha. rewrite Ha.
  destruct s; reflexivity.
Qed.

Lemma trimStart_noWs s : noWs s = true -> Str.trimStart s = s.
Proof.
  unfold noWs. destruct s as [|a s]; cbn [list_ascii_of_string forallb Str.trimStart];
    [reflexivity|].
  intro H. apply andb_true_iff in H. destruct H as [Ha _].
  apply negb_true_iff in Ha. rewrite Ha. reflexivity.
Qed.

Lemma noWs_string_of_uint d : noWs (NilEmpty.string_of_uint d) = true.
Proof.
  unfold noWs. induction d; cbn [NilEmpty.string_of_uint list_ascii_of_string forallb];
    try reflexivity; rewrite IHd; reflexivity.
Qed.

Lemma parseInt10_string_of_uint d :
  d <> Decimal.Nil ->
  Str.parseInt10 (Str.trim (NilEmpty.string_of_uint d))
  = Some (Z.of_N (Pos.of_uint d)).
Proof.
  intro H. unfold Str.trim.
  rewrite (trimStart_noWs _ (noWs_string_of_uint d)).
  rewrite (trimEnd_noWs _ (noWs_string_of_uint d)).
  unfold Str.parseInt10.
  rewrite (trimStart_noWs _ (noWs_string_of_uint d)).
  rewrite <- uintValue_of_uint, <- (digits_none_string_of_uint d H).
  destruct d; try congruence; reflexivity.
Qed.

(** Printing an integer in decimal and reading it back with
    [parseInt(s.trim(), 10)] gives the integer. *)
Lemma parseInt10_of_Z z : Str.parseInt10 (Str.trim (Str.of_Z z)) = Some z.
Proof.
  unfold Str.of_Z. destruct z as [|p|p]; cbn [Z.to_int NilZero.string_of_int].
  - reflexivity.
  - pose proof (DecimalPos.Unsigned.to_uint_nonnil p) as NN.
    assert (E : NilZero.string_of_uint (Pos.to_uint p)
                = NilEmpty.string_of_uint (Pos.to_uint p)).
    { unfold NilZero.string_of_uint. destruct (Pos.to_uint p); congruence. }
    rewrite E, (parseInt10_string_of_uint _ NN).
    rewrite DecimalPos.Unsigned.of_to. reflexivity.
  - pose proof (DecimalPos.Unsigned.to_uint_nonnil p) as NN.
    assert (E : NilZero.string_of_uint (Pos.to_uint p)
                = NilEmpty.string_of_uint (Pos.to_uint p)).
    { unfold NilZero.string_of_uint. destruct (Pos.to_uint p); congruence. }
    rewrite E.
    set (ds := NilEmpty.string_of_uint (Pos.to_uint p)).
    assert (W : noWs (String "-" ds) = true).
    { unfold noWs. cbn [list_ascii_of_string forallb].
      apply andb_true_iff. split; [reflexivity|].
      apply noWs_string_of_uint. }
    unfold Str.trim. rewrite (trimStart_noWs _ W), (trimEnd_noWs _ W).
    unfold Str.parseInt10. rewrite (trimStart_noWs _ W).
    subst ds. rewrite (digits_none_string_of_uint _ NN).
    rewrite uintValue_of_uint, DecimalPos.Unsigned.of_to. reflexivity.
Qed.

End PidFacts.

(** X6.  The PID file round trip: after [writePid], [readPid] returns the
    process's own PID, so [isDaemonRunning] answers whether that process
    is alive, and leaves the file in place when it is. *)
Theorem writePid_readPid :
  forall (W : World) (s : DaemonState),
    let s1 := snd (writePid W s) in
    fst (readPid s1) = Some (ownPid W)
    /\ fst (isDaemonRunning W s1) = alive W (ownPid W)
    /\ (alive W (ownPid W) = true -> snd (isDaemonRunning W s1) = s1).
Proof.
  intros W s. destruct s as [rn pt wt hs ru pf ul rd tr]. cbv zeta.
  run. rewrite parseInt10_of_Z. run.
  split; [reflexivity|].
  destruct (alive W (ownPid W)); split; try reflexivity; discriminate.
Qed.

(* ===================================================================== *)
(** * Further properties: stopping                                         *)
(* ===================================================================== *)

(** What [stopDaemon] prints. *)
Inductive StopReport : Type :=
| NoDaemonRunning
| DaemonStopped (pid : Z)
| DaemonNotFound.

(** What the [stop] command does besides the PID file: the call
    [process.kill(pid, "SIGTERM")], with whether it returned ([true]) or
    raised, and the line printed. *)
Inductive StopEvent : Type :=
| Kill (pid : Z) (delivered : bool)
| Said (line : StopReport).

(** [stopDaemon()], run by the [stop] command in a process of its own; it
    returns what that process did, in order.  [process.kill(pid,
    "SIGTERM")] returns under the conditions [process.kill(pid, 0)]
    returns (the process exists and may be signalled), which is [alive].
    A PID that is not positive names a process group, the caller's own
    for 0; the theorem below leaves those aside. *)
Definition stopDaemon (W : World) : M (list StopEvent) :=
  pid <- readPid ;;
  match pid with
  | None => ret [Said NoDaemonRunning]
  | Some pid =>
      if alive W pid then
        removePid ;;
        ret [Kill pid true; Said (DaemonStopped pid)]
      else
        removePid ;;
        ret [Kill pid false; Said DaemonNotFound]
  end.

(** X7.  [stopDaemon] signals the process the PID file names and no other.
    Without a PID it can read (no file, or a file that does not start with
    a number) it sends no signal, reports that no daemon runs and leaves
    everything as it is.  With a PID it sends SIGTERM to exactly that
    process, once, reports the stop when the signal was delivered and a
    stale file when it was not, and removes the PID file in both cases.
    After that a second [stop] sends no signal and changes nothing, a new
    start is not refused, and it does not matter whether the daemon's
    signal handler runs before or after the removal of the file. *)
Theorem stopDaemon_signals_and_cleans :
  forall (W : World) (s : DaemonState),
    match fst (readPid s) with
    | None => stopDaemon W s = ([Said NoDaemonRunning], s)
    | Some pid =>
        (0 < pid)%Z ->
        let s1 := set_pidFile None s in
        stopDaemon W s
        = ([Kill pid (alive W pid);
            Said (if alive W pid then DaemonStopped pid else DaemonNotFound)],
           s1)
        /\ stopDaemon W s1 = ([Said NoDaemonRunning], s1)
        /\ isDaemonRunning W s1 = (false, s1)
        /\ snd (shutdown s1) = snd (removePid (snd (shutdown s)))
    end.
Proof.
  intros W s. destruct s as [rn pt wt hs ru pf ul rd tr].
  unfold stopDaemon, isDaemonRunning, readPid, removePid, bind, gets, modify,
    ret.
  cbn [fst snd pidFile set_pidFile].
  destruct pf as [content|]; [|reflexivity].
  destruct (Str.parseInt10 (Str.trim content)) as [pid|] eqn:P;
    [|reflexivity].
  intros _. cbv zeta.
  split; [destruct (alive W pid); reflexivity|].
  split; [reflexivity|]. split; [reflexivity|].
  destruct rn; reflexivity.
Qed.

(** The theorem on a PID file that names the live process 4000. *)
Lemma stopDaemon_signals_and_cleans_example :
  let r := stopDaemon (Example.world 0) (Example.fresh (Some "4000")) in
  fst r = [Kill 4000 true; Said (DaemonStopped 4000)]
  /\ pidFile (snd r) = None.
Proof.
  destruct (stopDaemon_signals_and_cleans (Example.world 0)
              (Example.fresh (Some "4000")) eq_refl) as [E _].
  cbv zeta. rewrite E. split; reflexivity.
Defined.

(** X8.  The signal handler.  On a running daemon [shutdown] clears
    [running], stops timer, watcher and server, removes the PID file and
    exits with status 0, touching neither the snapshot nor the usage log.
    It is idempotent: a second signal changes nothing.  After it, the
    callbacks of the timer and of the file watcher do nothing: no fetch, no
    light command, no trim. *)
Theorem shutdown_once :
  forall (B : Builtins) (W : World) (config : ClaudeHueConfig)
         (s : DaemonState),
    let s1 := snd (shutdown s) in
    (running s = true ->
     s1 = set_trace (trace s ++ [Console Stopping; Exit 0])
            (set_pidFile None
               (set_httpServer false
                  (set_watcher false
                     (set_pollTimer false (set_running false s))))))
    /\ (running s = false -> s1 = s)
    /\ shutdown s1 = (tt, s1)
    /\ handle B W config Tick s1 = (None, s1)
    /\ handle B W config LogChanged s1 = (None, s1)
    /\ handle B W config Signal s1 = (None, s1).
Proof.
  intros B W config s. destruct s as [rn pt wt hs ru pf ul rd tr]. cbv zeta.
  destruct rn.
  - assert (E : snd (shutdown (Build_DaemonState true pt wt hs ru pf ul rd tr))
                = Build_DaemonState false false false false ru None ul rd
                    ((tr ++ [Console Stopping]) ++ [Exit 0]))
      by reflexivity.
    rewrite E. rewrite <- app_assoc.
    repeat split; try reflexivity. discriminate.
  - repeat split; try reflexivity. discriminate.
Qed.

(* ===================================================================== *)
(** * Further properties: the refresh chain                                *)
(* ===================================================================== *)

Section RefreshFacts.
Variable B : Builtins.
Variable W : World.
Variable config : ClaudeHueConfig.

(** What the OAuth adapter yields: the parsed response when a token is
    present, the request succeeds, the parser returns and there is at
    least one limit. *)
Definition oauthOutcome : option ClaudeUsageResponse :=
  match oauthToken W with
  | Some token =>
      match oauthResponse W token with
      | Some raw =>
          match parseUsageResponse B raw with
          | Some result => if hasLimits result then Some result else None
          | None => None
          end
      | None => None
      end
  | None => None
  end.

(** The same for the cookie adapter, which needs both credentials. *)
Definition cookieOutcome : option ClaudeUsageResponse :=
  match cookieConfigured config with
  | Some c =>
      match cookieResponse W (cookie c) (orgId c) with
      | Some raw =>
          match parseUsageResponse B raw with
          | Some result => if hasLimits result then Some result else None
          | None => None
          end
      | None => None
      end
  | None => None
  end.

(** The fetch each adapter makes when it is tried. *)
Definition oauthCall : list Event :=
  match oauthToken W with
  | Some token => [FetchOAuth token]
  | None => []
  end.

Definition cookieCall : list Event :=
  match cookieConfigured config with
  | Some c => [FetchCookie (cookie c) (orgId c)]
  | None => []
  end.

(** The snapshot stored from a response received at time [now]. *)
Definition snapshotOf (src : RemoteSource) (result : ClaudeUsageResponse)
    (now : Z) : RemoteUsage :=
  {| ru_percentage := highestPercent result;
     ru_details := limitDetails B (limits result);
     receivedAt := now;
     ru_source := src |}.

(** OAuth first, the cookie adapter when OAuth yields nothing: the
    snapshot obtained at clock reading [n], if any, and the fetches made. *)
Definition refreshed (n : nat) : option RemoteUsage :=
  match oauthOutcome with
  | Some result => Some (snapshotOf oauth result (clock W n))
  | None =>
      match cookieOutcome with
      | Some result => Some (snapshotOf api result (clock W n))
      | None => None
      end
  end.

Definition refreshCalls : list Event :=
  (oauthCall ++ match oauthOutcome with
                | Some _ => []
                | None => cookieCall
                end)%list.

End RefreshFacts.

(** X9.  At startup the OAuth adapter is tried first and the cookie
    adapter only when OAuth yields nothing (no token, failed request,
    parser error or no limit) and both cookie credentials are configured.
    The first adapter that returns limits provides the snapshot, tagged
    with its source; when none does, the snapshot is left as it was. *)
Theorem fetchUsageOnStartup_chain :
  forall (B : Builtins) (W : World) (config : ClaudeHueConfig)
         (s : DaemonState),
    let s' := snd (fetchUsageOnStartup B W config s) in
    remoteUsage s'
    = match refreshed B W config (reads s) with
      | Some u => Some u
      | None => remoteUsage s
      end
    /\ adapterCalls (trace s')
       = (adapterCalls (trace s) ++ refreshCalls B W config)%list.
Proof.
  intros B W config s. destruct s as [rn pt wt hs ru pf ul rd tr].
  cbv zeta.
  unfold refreshed, refreshCalls, oauthOutcome, cookieOutcome, oauthCall,
    cookieCall, snapshotOf, adapterCalls.
  run.
  repeat branch;
    rewrite <- ?app_assoc, ?filter_app; cbn [filter isAdapterCall app];
    rewrite ?app_nil_r; split; reflexivity.
Qed.

(** X10.  On a poll tick of a running daemon that holds no snapshot, the
    refresh is the startup's: OAuth first, the cookie adapter when OAuth
    yields nothing and the credentials are configured; the snapshot after
    the tick is the one the first successful adapter provides, and none
    when both yield nothing. *)
Theorem pollTick_without_snapshot :
  forall (B : Builtins) (W : World) (config : ClaudeHueConfig)
         (s : DaemonState),
    running s = true ->
    remoteUsage s = None ->
    let s' := snd (pollTick B W config s) in
    remoteUsage s' = refreshed B W config (reads s)
    /\ adapterCalls (trace s')
       = (adapterCalls (trace s) ++ refreshCalls B W config)%list.
Proof.
  intros B W config s Hrun Hru. destruct s as [rn pt wt hs ru pf ul rd tr].
  cbn [running remoteUsage] in Hrun, Hru. subst rn ru.
  cbv zeta.
  unfold refreshed, refreshCalls, oauthOutcome, cookieOutcome, oauthCall,
    cookieCall, snapshotOf, adapterCalls.
  run.
  repeat branch;
    rewrite <- ?app_assoc, ?filter_app; cbn [filter isAdapterCall app];
    rewrite ?app_nil_r; split; reflexivity.
Qed.

(** The theorem in the world of the examples: the OAuth request fails and
    the cookie endpoint answers 42% and 17%. *)
Lemma pollTick_without_snapshot_example :
  let s' := snd (pollTick std (Example.world 1000) Example.config
                          (Example.started None)) in
  option_map ru_source (remoteUsage s') = Some api
  /\ adapterCalls (trace s')
     = [FetchOAuth "sk-ant-oat01-xyz";
        FetchCookie "sessionKey=sk-ant-sid01-abc" "org-1"].
Proof.
  destruct (pollTick_without_snapshot std (Example.world 1000) Example.config
              (Example.started None) eq_refl eq_refl) as [R C].
  cbv zeta. rewrite R, C. split; reflexivity.
Defined.

Section TickFacts.

Lemma applied_app (t u : list Event) :
  applied (t ++ u) = (applied t ++ applied u)%list.
Proof.
  induction t as [|e t IH]; cbn [app applied]; [reflexivity|].
  destruct e as [| | |[]|]; cbn [app]; rewrite IH; reflexivity.
Qed.

(** The light commands recorded in a trace. *)
Definition isLightCommand (e : Event) : bool :=
  match e with
  | PutLight _ => true
  | _ => false
  end.

Definition lightCommands (t : list Event) : list Event :=
  filter isLightCommand t.

End TickFacts.

(** X11.  A stale snapshot is replaced when OAuth answers: on a poll tick
    of a running daemon whose snapshot is older than the threshold, the
    OAuth adapter is called when a token is there, and when it returns
    limits the snapshot becomes the OAuth one, received at the next reading
    of the clock. *)
Theorem pollTick_refreshes_stale_snapshot :
  forall (B : Builtins) (W : World) (config : ClaudeHueConfig)
         (s : DaemonState) (u : RemoteUsage) (result : ClaudeUsageResponse),
    running s = true ->
    remoteUsage s = Some u ->
    (USAGE_STALE_MS < clock W (reads s) - receivedAt u)%Z ->
    oauthOutcome B W = Some result ->
    let s' := snd (pollTick B W config s) in
    remoteUsage s'
    = Some (snapshotOf B oauth result (clock W (S (reads s))))
    /\ adapterCalls (trace s')
       = (adapterCalls (trace s) ++ oauthCall W)%list.
Proof.
  intros B W config s u result Hrun Hru Hstale Ho.
  destruct s as [rn pt wt hs ru pf ul rd tr].
  cbn [running remoteUsage reads] in Hrun, Hru, Hstale. subst rn ru.
  assert (E1 : (clock W rd - receivedAt u >? USAGE_STALE_MS)%Z = true).
  { rewrite Z.gtb_ltb. apply Z.ltb_lt. exact Hstale. }
  cbv zeta. unfold oauthOutcome in Ho.
  unfold oauthCall, snapshotOf, adapterCalls.
  run. rewrite E1. run.
  destruct (oauthToken W) as [token|]; [|discriminate]. run.
  destruct (oauthResponse W token) as [raw|]; [|discriminate]. run.
  destruct (parseUsageResponse B raw) as [r|]; [|discriminate]. run.
  destruct (hasLimits r); [|discriminate]. inversion Ho; subst r. run.
  repeat branch;
    rewrite <- ?app_assoc, ?filter_app; cbn [filter isAdapterCall app];
    rewrite ?app_nil_r; split; reflexivity.
Qed.

(** The world of the examples with an OAuth endpoint that answers. *)
Definition oauthWorld (now : Z) : World := {|
  clock := fun _ => now;
  ownPid := 4242;
  alive := fun pid => (pid =? 4000)%Z;
  configFile := Some Example.config;
  oauthToken := Some "sk-ant-oat01-xyz";
  oauthResponse := fun _ => Some (Example.usagePayload 30 60);
  cookieResponse := fun _ _ => None;
  bridgeAccepts := fun _ => true;
  watchOk := true;
  portFree := true
|}.

(** The theorem six minutes after an OAuth snapshot: the new snapshot
    carries the five-hour value, 30%. *)
Lemma pollTick_refreshes_stale_snapshot_example :
  let s' := snd (pollTick std (oauthWorld 360001) Example.config
                          (Example.started (Some (Example.snapshot oauth)))) in
  option_map ru_percentage (remoteUsage s') = Some (Fin (30 # 100))
  /\ option_map receivedAt (remoteUsage s') = Some 360001%Z.
Proof.
  destruct (pollTick_refreshes_stale_snapshot std (oauthWorld 360001)
              Example.config
              (Example.started (Some (Example.snapshot oauth)))
              (Example.snapshot oauth)
              {| limits := collectLimits std (Example.usagePayload 30 60);
                 highestPercent := Fin (30 # 100) |}
              eq_refl eq_refl) as [R _].
  - vm_compute. reflexivity.
  - reflexivity.
  - cbv zeta. rewrite R. split; reflexivity.
Defined.

(** X12.  The edge of the staleness window.  The scheduler refreshes a
    snapshot whose age exceeds five minutes, the resolver trusts one whose
    age is below five minutes: on a tick that finds the snapshot no older
    than the threshold at its first reading of the clock and no younger at
    the second (an age of exactly five minutes in particular), no adapter
    is called, the snapshot stays, and what is applied is the local
    count. *)
Theorem pollTick_at_staleness_edge :
  forall (B : Builtins) (W : World) (config : ClaudeHueConfig)
         (s : DaemonState) (u : RemoteUsage),
    running s = true ->
    remoteUsage s = Some u ->
    (clock W (reads s) - receivedAt u <= USAGE_STALE_MS)%Z ->
    (USAGE_STALE_MS <= clock W (S (reads s)) - receivedAt u)%Z ->
    let s' := snd (pollTick B W config s) in
    adapterCalls (trace s') = adapterCalls (trace s)
    /\ remoteUsage s' = Some u
    /\ exists l,
         applied (trace s') = (applied (trace s) ++ l)%list
         /\ Forall (fun r => r_source r = local) l.
Proof.
  intros B W config s u Hrun Hru H1 H2.
  destruct s as [rn pt wt hs ru pf ul rd tr].
  cbn [running remoteUsage reads] in Hrun, Hru, H1, H2. subst rn ru.
  assert (E1 : (clock W rd - receivedAt u >? USAGE_STALE_MS)%Z = false).
  { rewrite Z.gtb_ltb. apply Z.ltb_ge. exact H1. }
  assert (E2 : (clock W (S rd) - receivedAt u <? USAGE_STALE_MS)%Z = false).
  { apply Z.ltb_ge. exact H2. }
  cbv zeta. unfold adapterCalls. run. rewrite E1. run. rewrite !E2. run.
  repeat branch;
    (split;
     [rewrite <- ?app_assoc, ?filter_app; cbn [filter isAdapterCall app];
      rewrite ?app_nil_r; reflexivity|]);
    (split; [reflexivity|]);
    rewrite <- ?app_assoc, ?applied_app; cbn [app applied];
    eexists; (split; [reflexivity|]); repeat constructor.
Qed.

(** The theorem on a snapshot exactly five minutes old. *)
Lemma pollTick_at_staleness_edge_example :
  let s' := snd (pollTick std (Example.world 300000) Example.config
                          (Example.started (Some (Example.snapshot oauth)))) in
  adapterCalls (trace s') = []
  /\ map r_source (applied (trace s')) = [local].
Proof.
  destruct (pollTick_at_staleness_edge std (Example.world 300000)
              Example.config
              (Example.started (Some (Example.snapshot oauth)))
              (Example.snapshot oauth) eq_refl eq_refl) as [A _].
  - vm_compute. discriminate.
  - vm_compute. discriminate.
  - cbv zeta. split; [exact A|]. reflexivity.
Defined.

(** What a poll tick leaves alone, and how many commands it sends. *)
Lemma pollTick_frame (B : Builtins) (W : World) (config : ClaudeHueConfig)
    (s : DaemonState) :
  let s' := snd (pollTick B W config s) in
  running s' = running s /\ pidFile s' = pidFile s
  /\ (running s = true ->
      List.length (lightCommands (trace s'))
      = S (List.length (lightCommands (trace s))))
  /\ (running s = false -> s' = s).
Proof.
  destruct s as [rn pt wt hs ru pf ul rd tr]. cbv zeta. cbn [running].
  destruct rn.
  - unfold lightCommands. run.
    repeat branch; (split; [reflexivity|]); (split; [reflexivity|]);
      (split; [intros _|discriminate]);
      rewrite <- ?app_assoc, ?filter_app, ?length_app;
      cbn [filter isLightCommand app List.length]; lia.
  - repeat split. discriminate.
Qed.

(** X13.  Every tick applies once: a poll tick of a running daemon sends
    exactly one command to the light, whatever the adapters and the bridge
    answer; a tick of a daemon that is not running does nothing at all. *)
Theorem pollTick_applies_once :
  forall (B : Builtins) (W : World) (config : ClaudeHueConfig)
         (s : DaemonState),
    let s' := snd (pollTick B W config s) in
    (running s = true ->
     List.length (lightCommands (trace s'))
     = S (List.length (lightCommands (trace s))))
    /\ (running s = false -> s' = s).
Proof.
  intros B W config s. cbv zeta.
  destruct (pollTick_frame B W config s) as [_ [_ [H1 H2]]].
  split; assumption.
Qed.

(** X14.  [POST /usage].  A body that is not JSON, or from which no
    numeric utilization can be read, is answered with a rejection and
    changes nothing: the snapshot, the files and the light are untouched.
    An accepted payload is stored as the snapshot, tagged [extension] and
    stamped with the clock, no adapter is called, and the light receives
    one command at once; unless the clock jumps by five minutes in
    between, what is applied is the pushed percentage with its details. *)
Theorem postUsage_contract :
  forall (B : Builtins) (W : World) (config : ClaudeHueConfig)
         (body : option json) (s : DaemonState),
    let r := fst (postUsage B W config body s) in
    let s' := snd (postUsage B W config body s) in
    match body with
    | None => r = UsageRejected "Invalid JSON" /\ s' = s
    | Some data =>
        match parseExtensionUsage B data with
        | None => r = UsageRejected "Could not parse usage data" /\ s' = s
        | Some (p, d) =>
            r = UsageAccepted
            /\ remoteUsage s'
               = Some {| ru_percentage := p; ru_details := d;
                         receivedAt := clock W (reads s);
                         ru_source := extension |}
            /\ adapterCalls (trace s') = adapterCalls (trace s)
            /\ List.length (lightCommands (trace s'))
               = S (List.length (lightCommands (trace s)))
            /\ ((clock W (S (reads s)) - clock W (reads s)
                 < USAGE_STALE_MS)%Z ->
                exists l,
                  applied (trace s') = (applied (trace s) ++ l)%list
                  /\ Forall (fun a => a = {| r_percentage := p;
                                             r_source := remote extension;
                                             r_details := d |}) l)
        end
    end.
Proof.
  intros B W config body s. destruct s as [rn pt wt hs ru pf ul rd tr].
  cbv zeta. destruct body as [data|]; [|split; reflexivity].
  destruct (parseExtensionUsage B data) as [[p d]|] eqn:P;
    unfold adapterCalls, lightCommands; run; rewrite P; run;
    [|split; reflexivity].
  repeat branch;
    (split; [reflexivity|]); (split; [reflexivity|]);
    (split;
     [rewrite <- ?app_assoc, ?filter_app; cbn [filter isAdapterCall app];
      rewrite ?app_nil_r; reflexivity|]);
    (split;
     [rewrite <- ?app_assoc, ?filter_app, ?length_app;
      cbn [filter isLightCommand app List.length]; lia|]);
    intro H;
    try (match goal with
         | E : (_ <? _)%Z = false |- _ =>
             cbn [receivedAt] in E; apply Z.ltb_ge in E; lia
         end);
    rewrite <- ?app_assoc, ?applied_app; cbn [app applied];
    eexists; (split; [reflexivity|]); repeat constructor.
Qed.

(* ===================================================================== *)
(** * src/hue/color.ts: hexadecimal colours                                *)
(* ===================================================================== *)

Module Hex.

(** The value of a character of the class [[0-9a-f]] under the flag [i];
    [None] for every other character. *)
Definition hexDigit (c : ascii) : option Z :=
  let n := Z.of_nat (nat_of_ascii c) in
  if ((48 <=? n) && (n <=? 57))%Z%bool then Some (n - 48)%Z
  else if ((97 <=? n) && (n <=? 102))%Z%bool then Some (n - 87)%Z
  else if ((65 <=? n) && (n <=? 70))%Z%bool then Some (n - 55)%Z
  else None.

(** [parseInt(a + b, 16)] for two characters; the pattern lets only
    hexadecimal digits reach it. *)
Definition parseInt16 (a b : ascii) : option Z :=
  match hexDigit a, hexDigit b with
  | Some hi, Some lo => Some (16 * hi + lo)%Z
  | _, _ => None
  end.

Record Rgb : Type := { r : Z; g : Z; b : Z }.

(** [hex.replace(/^#/, "")] *)
Definition stripHash (hex : string) : string :=
  match hex with
  | String "#" rest => rest
  | _ => hex
  end.

Definition rgbOf (r g b : option Z) : option Rgb :=
  match r, g, b with
  | Some r, Some g, Some b => Some {| r := r; g := g; b := b |}
  | _, _, _ => None
  end.

(** [hexToRgb(hex)]: the pattern [/^([0-9a-f]{3}|[0-9a-f]{6})$/i] matches
    a string of exactly three or exactly six hexadecimal digits. *)
Definition hexToRgb (hex : string) : option Rgb :=
  match stripHash hex with
  | String h0 (String h1 (String h2 EmptyString)) =>
      rgbOf (parseInt16 h0 h0) (parseInt16 h1 h1) (parseInt16 h2 h2)
  | String h0 (String h1 (String h2 (String h3 (String h4
      (String h5 EmptyString))))) =>
      rgbOf (parseInt16 h0 h1) (parseInt16 h2 h3) (parseInt16 h4 h5)
  | _ => None
  end.

End Hex.

Lemma hexDigit_range c d : Hex.hexDigit c = Some d -> (0 <= d <= 15)%Z.
Proof.
  unfold Hex.hexDigit. cbv zeta.
  generalize (Z.of_nat (nat_of_ascii c)). intro n.
  repeat match goal with
         | |- context [if ?t then _ else _] =>
             let E := fresh "E" in
             destruct t eqn:E;
             [apply andb_true_iff in E; destruct E as [?%Z.leb_le ?%Z.leb_le]|]
         end; intro K; inversion K; subst; lia.
Qed.

Lemma parseInt16_range a b v :
  Hex.parseInt16 a b = Some v -> (0 <= v <= 255)%Z.
Proof.
  unfold Hex.parseInt16.
  destruct (Hex.hexDigit a) as [hi|] eqn:A; [|discriminate].
  destruct (Hex.hexDigit b) as [lo|] eqn:Bd; [|discriminate].
  intro H. apply hexDigit_range in A. apply hexDigit_range in Bd.
  assert (E : v = (16 * hi + lo)%Z) by congruence. lia.
Qed.

Lemma rgbOf_range x y z c :
  Hex.rgbOf x y z = Some c ->
  x = Some (Hex.r c) /\ y = Some (Hex.g c) /\ z = Some (Hex.b c).
Proof.
  destruct x, y, z; cbn; try discriminate.
  intro H. inversion H. cbn. repeat split.
Qed.

Lemma hexDigit_lower c : Hex.hexDigit (Str.lower c) = Hex.hexDigit c.
Proof.
  destruct c as [[] [] [] [] [] [] [] []]; reflexivity.
Qed.

Lemma parseInt16_lower a b :
  Hex.parseInt16 (Str.lower a) (Str.lower b) = Hex.parseInt16 a b.
Proof. unfold Hex.parseInt16. rewrite !hexDigit_lower. reflexivity. Qed.

Lemma lower_hash c : (Str.lower c =? "#")%char = (c =? "#")%char.
Proof.
  destruct c as [[] [] [] [] [] [] [] []]; reflexivity.
Qed.

Lemma stripHash_lower h :
  Hex.stripHash (Str.toLowerCase h) = Str.toLowerCase (Hex.stripHash h).
Proof.
  destruct h as [|c rest]; [reflexivity|].
  cbn [Str.toLowerCase].
  destruct c as [[] [] [] [] [] [] [] []]; reflexivity.
Qed.

(** X15.  Every colour [hexToRgb] returns has its three channels within
    0..255, the domain of [srgbToLinear]. *)
Theorem hexToRgb_channels_in_range :
  forall (hex : string) (c : Hex.Rgb),
    Hex.hexToRgb hex = Some c ->
    (0 <= Hex.r c <= 255)%Z /\ (0 <= Hex.g c <= 255)%Z
    /\ (0 <= Hex.b c <= 255)%Z.
Proof.
  intros hex c. unfold Hex.hexToRgb.
  destruct (Hex.stripHash hex) as [|h0 [|h1 [|h2 [|h3 [|h4 [|h5 [|h6 t]]]]]]];
    try discriminate; intro H;
    apply rgbOf_range in H; destruct H as [R [G Bl]];
    apply parseInt16_range in R; apply parseInt16_range in G;
    apply parseInt16_range in Bl; auto.
Qed.

(** The colour [#40a02b] of the setup prompt. *)
Lemma hexToRgb_channels_in_range_example :
  Hex.hexToRgb "#40a02b" = Some {| Hex.r := 64; Hex.g := 160; Hex.b := 43 |}
  /\ (0 <= 64 <= 255)%Z /\ (0 <= 160 <= 255)%Z /\ (0 <= 43 <= 255)%Z.
Proof.
  split; [reflexivity|].
  exact (hexToRgb_channels_in_range "#40a02b"
           {| Hex.r := 64; Hex.g := 160; Hex.b := 43 |} eq_refl).
Defined.

(** X16.  Notations of one colour.  The three-digit form stands for the
    six-digit form with every digit doubled; the case of the letters does
    not matter; the leading [#] is optional (a colour accepted with it is
    the colour read without it) and a second [#] is not accepted; and
    nothing but three or six characters after the optional [#] is
    accepted. *)
Theorem hexToRgb_notations :
  (forall a b c : ascii,
      Hex.hexToRgb (String a (String b (String c "")))
      = Hex.hexToRgb (String a (String a (String b (String b
                       (String c (String c "")))))))
  /\ (forall hex, Hex.hexToRgb (Str.toLowerCase hex) = Hex.hexToRgb hex)
  /\ (forall hex,
         Hex.hexToRgb (String "#" hex) <> None ->
         Hex.hexToRgb hex = Hex.hexToRgb (String "#" hex)
         /\ Hex.hexToRgb (String "#" (String "#" hex)) = None)
  /\ (forall hex,
         Hex.hexToRgb hex <> None ->
         String.length (Hex.stripHash hex) = 3%nat
         \/ String.length (Hex.stripHash hex) = 6%nat).
Proof.
  split; [|split; [|split]].
  - intros a b c. unfold Hex.hexToRgb, Hex.stripHash.
    destruct (Ascii.eqb a "#") eqn:E.
    + apply Ascii.eqb_eq in E. subst a. reflexivity.
    + assert (S : forall t, match String a t with
                            | String "#" rest => rest
                            | _ => String a t
                            end = String a t).
      { intro t. destruct a as [[] [] [] [] [] [] [] []];
          try reflexivity; discriminate. }
      rewrite !S. reflexivity.
  - intro hex. unfold Hex.hexToRgb. rewrite stripHash_lower.
    destruct (Hex.stripHash hex)
      as [|h0 [|h1 [|h2 [|h3 [|h4 [|h5 [|h6 t]]]]]]];
      cbn [Str.toLowerCase]; rewrite ?parseInt16_lower; reflexivity.
  - intros hex H.
    assert (N : Hex.hexDigit "#" = None) by reflexivity.
    assert (F : forall t, Hex.hexToRgb (String "#" t) <> None ->
                          Hex.stripHash t = t).
    { intros t. unfold Hex.hexToRgb. cbn [Hex.stripHash].
      destruct t as [|c t']; [reflexivity|].
      destruct (Ascii.eqb c "#") eqn:E.
      - apply Ascii.eqb_eq in E. subst c.
        unfold Hex.parseInt16. rewrite N.
        destruct t' as [|h1 [|h2 [|h3 [|h4 [|h5 [|h6 t]]]]]];
          intro K; exfalso; apply K; try reflexivity;
          cbn; repeat match goal with
                      | |- context [Hex.hexDigit ?x] =>
                          destruct (Hex.hexDigit x)
                      end; reflexivity.
      - intros _. destruct c as [[] [] [] [] [] [] [] []];
          try reflexivity; discriminate. }
    pose proof (F hex H) as S.
    split.
    + unfold Hex.hexToRgb. rewrite S. reflexivity.
    + revert H. unfold Hex.hexToRgb. cbn [Hex.stripHash].
      unfold Hex.parseInt16. rewrite N.
      destruct hex as [|h1 [|h2 [|h3 [|h4 [|h5 [|h6 t]]]]]];
        intro K; try reflexivity;
        try (exfalso; apply K; reflexivity);
        cbn; repeat match goal with
                    | |- context [Hex.hexDigit ?x] =>
                        destruct (Hex.hexDigit x)
                    end; reflexivity.
  - intros hex. unfold Hex.hexToRgb.
    destruct (Hex.stripHash hex)
      as [|h0 [|h1 [|h2 [|h3 [|h4 [|h5 [|h6 t]]]]]]];
      intro K; try (exfalso; apply K; reflexivity);
      [left|right]; reflexivity.
Qed.

(* ===================================================================== *)
(** * Further properties: startup and the event loop                       *)
(* ===================================================================== *)

(** [m] sends [n] commands to the light. *)
Definition sends {A : Type} (n : nat) (m : M A) : Prop :=
  forall s,
    List.length (lightCommands (trace (snd (m s))))
    = (n + List.length (lightCommands (trace s)))%nat.

Lemma sends_bind {A C} a b (m : M A) (k : A -> M C) :
  sends a m -> (forall x, sends b (k x)) -> sends (a + b) (bind m k).
Proof.
  intros Hm Hk s. unfold bind. destruct (m s) as [x s1] eqn:E.
  rewrite Hk. specialize (Hm s). rewrite E in Hm. cbn [snd] in Hm.
  rewrite Hm. lia.
Qed.

Lemma sends_ret {A} (a : A) : sends 0 (ret a).
Proof. intro s. reflexivity. Qed.

Lemma sends_modify g :
  (forall s, trace (g s) = trace s) -> sends 0 (modify g).
Proof. intros H s. unfold modify. cbn [snd]. rewrite H. reflexivity. Qed.

Ltac sends_by_cases :=
  intros [rn pt wt hs ru pf ul rd tr]; unfold lightCommands; run;
  repeat branch;
  rewrite <- ?app_assoc, ?filter_app, ?length_app;
  cbn [filter isLightCommand app List.length]; lia.

(** [m] ends with the component [f] of the state at [v]. *)
Definition ends {A X : Type} (f : DaemonState -> X) (v : X) (m : M A) : Prop :=
  forall s, f (snd (m s)) = v.

Lemma ends_bind {A C X} (f : DaemonState -> X) v (m : M A) (k : A -> M C) :
  (forall a, ends f v (k a)) -> ends f v (bind m k).
Proof. intros Hk s. unfold bind. destruct (m s) as [a s1]. apply Hk. Qed.

Lemma ends_then {A C X} (f : DaemonState -> X) v (m : M A) (k : A -> M C) :
  ends f v m -> (forall a, keeps f (k a)) -> ends f v (bind m k).
Proof.
  intros Hm Hk s. unfold bind. destruct (m s) as [a s1] eqn:E.
  rewrite Hk. specialize (Hm s). rewrite E in Hm. exact Hm.
Qed.

Ltac keeps_cases :=
  intros [rn pt wt hs ru pf ul rd tr]; run; repeat branch; reflexivity.

Section StartupFacts.
Variable B : Builtins.
Variable W : World.
Variable config : ClaudeHueConfig.

Lemma sends_writePid : sends 0 (writePid W).
Proof. sends_by_cases. Qed.

Lemma sends_startHttpServer : sends 0 (startHttpServer W).
Proof. sends_by_cases. Qed.

Lemma sends_fetchUsageOnStartup : sends 0 (fetchUsageOnStartup B W config).
Proof. sends_by_cases. Qed.

Lemma sends_updateLight : sends 1 (updateLight B W config).
Proof. sends_by_cases. Qed.

Lemma sends_armWatcher quiet : sends 0 (armWatcher W quiet).
Proof. sends_by_cases. Qed.

Lemma sends_DaemonStarted : sends 0 (emit (Console DaemonStarted)).
Proof. sends_by_cases. Qed.

Lemma startWith_sends : sends 1 (startWith B W config).
Proof.
  unfold startWith.
  change 1%nat with (0 + (0 + (0 + (0 + (0 + (1 + (0 + (0 + 0))))))))%nat.
  repeat first
    [ apply sends_ret
    | apply sends_modify; intros []; reflexivity
    | apply sends_writePid
    | apply sends_DaemonStarted
    | apply sends_startHttpServer
    | apply sends_fetchUsageOnStartup
    | apply sends_updateLight
    | apply sends_armWatcher
    | apply sends_bind; [|intro] ].
Qed.

Lemma keeps_handles_startup :
  keeps httpServer (fetchUsageOnStartup B W config)
  /\ keeps httpServer (updateLight B W config)
  /\ keeps httpServer (armWatcher W false)
  /\ keeps usageLog (writePid W)
  /\ keeps usageLog (startHttpServer W)
  /\ keeps usageLog (fetchUsageOnStartup B W config)
  /\ keeps usageLog (updateLight B W config)
  /\ keeps usageLog (armWatcher W false).
Proof. repeat split; keeps_cases. Qed.

Lemma startWith_handles s :
  let s' := snd (startWith B W config s) in
  pollTimer s' = true /\ httpServer s' = true /\ usageLog s' = usageLog s.
Proof.
  cbv zeta.
  destruct keeps_handles_startup as [F1 [U1 [A1 [W2 [H2 [F2 [U2 A2]]]]]]].
  split; [|split].
  - revert s. change (ends pollTimer true (startWith B W config)).
    unfold startWith.
    do 7 (apply ends_bind; intro).
    apply ends_then; [intros []; reflexivity|intro; apply keeps_ret].
  - revert s. change (ends httpServer true (startWith B W config)).
    unfold startWith.
    do 3 (apply ends_bind; intro).
    apply ends_then.
    + intros [rn pt wt hs ru pf ul rd tr]. unfold startHttpServer. run.
      destruct (portFree W); reflexivity.
    + intro.
      repeat first
        [ apply keeps_ret
        | apply keeps_modify; intros []; reflexivity
        | assumption
        | apply keeps_bind; [|intro] ].
  - revert s. change (keeps usageLog (startWith B W config)).
    unfold startWith.
    repeat first
      [ apply keeps_ret
      | apply keeps_modify; intros []; reflexivity
      | assumption
      | apply keeps_bind; [|intro] ].
Qed.

End StartupFacts.

(** X17.  Starting without a marker.  When [readPid] finds no PID (no
    file, or a file that does not begin with a number), [startDaemon] does
    not refuse.  Without a configuration file it stops there, before it
    wrote a PID file, printed or sent anything.  With one it starts: it
    writes its own PID, sets [running], opens the server, arms the timer,
    leaves the usage log as it is, and sends exactly one command to the
    light before it returns, whatever the adapters and the bridge
    answer. *)
Theorem startDaemon_without_marker :
  forall (B : Builtins) (W : World) (s : DaemonState),
    fst (readPid s) = None ->
    (configFile W = None -> startDaemon B W s = (ConfigMissing, s))
    /\ (forall config,
           configFile W = Some config ->
           let r := startDaemon B W s in
           fst r = Started config
           /\ pidFile (snd r) = Some (Str.of_Z (ownPid W))
           /\ running (snd r) = true
           /\ httpServer (snd r) = true
           /\ pollTimer (snd r) = true
           /\ usageLog (snd r) = usageLog s
           /\ List.length (lightCommands (trace (snd r)))
              = S (List.length (lightCommands (trace s)))).
Proof.
  intros B W s Hpid.
  assert (R : isDaemonRunning W s = (false, s)).
  { destruct s as [rn pt wt hs ru pf ul rd tr].
    unfold isDaemonRunning, bind, ret.
    unfold readPid, bind, gets, ret in *. cbn [fst snd pidFile] in *.
    rewrite Hpid. reflexivity. }
  split.
  - intro C. rewrite startDaemon_unfold, R, C. reflexivity.
  - intros config C. cbv zeta. rewrite startDaemon_unfold, R, C.
    destruct (startWith_files B W config s) as [F1 [F2 F3]].
    destruct (startWith_handles B W config s) as [H1 [H2 H3]].
    pose proof (startWith_sends B W config s) as N.
    repeat split; assumption.
Qed.

(** The first start on the example machine: no PID file yet. *)
Lemma startDaemon_without_marker_example :
  fst (readPid (Example.fresh None)) = None
  /\ fst (startDaemon std (Example.world 0) (Example.fresh None)) = Started Example.config
  /\ pidFile (snd (startDaemon std (Example.world 0) (Example.fresh None)))
     = Some (Str.of_Z (ownPid (Example.world 0))).
Proof.
  destruct (startDaemon_without_marker std (Example.world 0) (Example.fresh None)
              eq_refl) as [_ H].
  destruct (H Example.config eq_refl) as [H1 [H2 _]].
  split; [reflexivity|]. split; assumption.
Defined.

(** The answer of [POST /usage] and the snapshot it leaves. *)
Lemma postUsage_shape (B : Builtins) (W : World) (config : ClaudeHueConfig)
    (body : option json) (s : DaemonState) :
  match body with
  | None =>
      fst (postUsage B W config body s) = UsageRejected "Invalid JSON"
      /\ snd (postUsage B W config body s) = s
  | Some data =>
      match parseExtensionUsage B data with
      | None =>
          fst (postUsage B W config body s)
          = UsageRejected "Could not parse usage data"
          /\ snd (postUsage B W config body s) = s
      | Some (p, d) =>
          fst (postUsage B W config body s) = UsageAccepted
          /\ remoteUsage (snd (postUsage B W config body s))
             = Some {| ru_percentage := p; ru_details := d;
                       receivedAt := clock W (reads s);
                       ru_source := extension |}
      end
  end.
Proof.
  destruct body as [data|]; [|split; reflexivity].
  unfold postUsage.
  destruct (parseExtensionUsage B data) as [[p d]|]; [|split; reflexivity].
  destruct (keeps_updateLight B W config) as [K _].
  unfold bind, Date_now, gets, modify, ret. cbn [fst snd].
  match goal with
  | |- context [updateLight B W config ?st] =>
      pose proof (K st) as E; destruct (updateLight B W config st) as [u s1]
  end.
  cbn [fst snd] in *. split; [reflexivity|].
  rewrite E. destruct s. reflexivity.
Qed.

(** X18.  [GET /status] after [POST /usage].  The status request changes
    nothing.  After an accepted push it reports the extension as
    connected, with the time of that push; after a rejected push it
    reports what it reported before. *)
Theorem status_reports_last_push :
  forall (B : Builtins) (W : World) (config : ClaudeHueConfig)
         (body : option json) (s : DaemonState),
    let before := handle B W config GetStatus s in
    let push := handle B W config (PostUsage body) s in
    let after := handle B W config GetStatus (snd push) in
    snd before = s
    /\ snd after = snd push
    /\ (fst push = Some UsageAccepted ->
        fst after = Some (Status true (Some (clock W (reads s)))))
    /\ (fst push <> Some UsageAccepted ->
        fst after = fst before /\ snd push = s).
Proof.
  intros B W config body s.
  pose proof (postUsage_shape B W config body s) as P.
  cbv zeta.
  assert (G : forall st, handle B W config GetStatus st
                         = (Some (Status
                                    (match remoteUsage st with
                                     | Some _ => true | None => false end)
                                    (option_map receivedAt (remoteUsage st))),
                            st)).
  { intros []. reflexivity. }
  assert (H : handle B W config (PostUsage body) s
              = (Some (fst (postUsage B W config body s)),
                 snd (postUsage B W config body s))).
  { unfold handle, bind, ret. destruct (postUsage B W config body s).
    reflexivity. }
  rewrite !G, H. cbn [fst snd].
  split; [reflexivity|]. split; [reflexivity|].
  destruct body as [data|].
  - destruct (parseExtensionUsage B data) as [[p d]|].
    + destruct P as [E R]. rewrite E, R. cbn [option_map receivedAt].
      split; [reflexivity|]. intro K. exfalso. apply K. reflexivity.
    + destruct P as [E R]. rewrite E, R.
      split; [discriminate|]. intros _. split; reflexivity.
  - destruct P as [E R]. rewrite E, R.
    split; [discriminate|]. intros _. split; reflexivity.
Qed.

(** The state a handler of the event loop leaves. *)
Lemma handle_snd (B : Builtins) (W : World) (config : ClaudeHueConfig)
    (i : Input) (s : DaemonState) :
  snd (handle B W config i s)
  = match i with
    | Tick => snd (pollTick B W config s)
    | LogChanged => snd (onLogChange B W config s)
    | PostUsage body => snd (postUsage B W config body s)
    | GetStatus => s
    | Signal => snd (shutdown s)
    end.
Proof.
  destruct i; unfold handle; [| | |destruct s; reflexivity|];
    unfold bind, ret;
    match goal with
    | |- context [let (_, _) := ?m in _] => destruct m
    end; reflexivity.
Qed.

Ltac count_commands :=
  rewrite <- ?app_assoc, ?filter_app, ?length_app;
  cbn [filter isLightCommand isAdapterCall app List.length];
  rewrite ?app_nil_r.

Lemma updateLight_frame (B : Builtins) (W : World) (config : ClaudeHueConfig)
    (s : DaemonState) :
  let s' := snd (updateLight B W config s) in
  onlyIO s s'
  /\ adapterCalls (trace s') = adapterCalls (trace s)
  /\ List.length (lightCommands (trace s'))
     = S (List.length (lightCommands (trace s))).
Proof.
  destruct s as [rn pt wt hs ru pf ul rd tr]. cbv zeta.
  unfold onlyIO, adapterCalls, lightCommands. run.
  repeat branch; (split; [reflexivity|]); split; count_commands;
    reflexivity || lia.
Qed.

Lemma onLogChange_frame (B : Builtins) (W : World) (config : ClaudeHueConfig)
    (s : DaemonState) :
  let s' := snd (onLogChange B W config s) in
  onlyIO s s'
  /\ adapterCalls (trace s') = adapterCalls (trace s)
  /\ (List.length (lightCommands (trace s'))
      <= S (List.length (lightCommands (trace s))))%nat.
Proof.
  cbv zeta. unfold onLogChange, bind, gets, when. cbn [fst snd].
  destruct (running s) eqn:R.
  - destruct (updateLight_frame B W config s) as [F1 [F2 F3]].
    split; [exact F1|]. split; [exact F2|]. rewrite F3. lia.
  - unfold ret. cbn [snd]. split; [destruct s; reflexivity|].
    split; [reflexivity|]. lia.
Qed.

Lemma postUsage_frame (B : Builtins) (W : World) (config : ClaudeHueConfig)
    (body : option json) (s : DaemonState) :
  let s' := snd (postUsage B W config body s) in
  (running s' = running s /\ pidFile s' = pidFile s
   /\ usageLog s' = usageLog s)
  /\ adapterCalls (trace s') = adapterCalls (trace s)
  /\ (List.length (lightCommands (trace s'))
      <= S (List.length (lightCommands (trace s))))%nat.
Proof.
  cbv zeta. unfold postUsage.
  destruct body as [data|];
    [destruct (parseExtensionUsage B data) as [[p d]|]|];
    try (cbn [ret snd]; repeat split; lia).
  unfold bind, Date_now, gets, modify, ret. cbn [fst snd].
  match goal with
  | |- context [updateLight B W config ?st] =>
      destruct (updateLight_frame B W config st) as [F1 [F2 F3]];
      destruct (updateLight B W config st) as [u s1]
  end.
  cbn [fst snd] in *. unfold onlyIO in F1.
  rewrite F2, F3. destruct s as [rn pt wt hs ru pf ul rd tr].
  cbn [trace set_remoteUsage set_reads] in *.
  rewrite F1. cbn [running pidFile usageLog set_trace set_reads].
  repeat split. lia.
Qed.

Lemma shutdown_frame (s : DaemonState) :
  let s' := snd (shutdown s) in
  usageLog s' = usageLog s
  /\ adapterCalls (trace s') = adapterCalls (trace s)
  /\ lightCommands (trace s') = lightCommands (trace s).
Proof.
  destruct s as [rn pt wt hs ru pf ul rd tr]. cbv zeta. destruct rn.
  - assert (E : snd (shutdown (Build_DaemonState true pt wt hs ru pf ul rd tr))
                = Build_DaemonState false false false false ru None ul rd
                    ((tr ++ [Console Stopping]) ++ [Exit 0]))
      by reflexivity.
    rewrite E. cbn [usageLog trace]. unfold adapterCalls, lightCommands.
    rewrite !filter_app. cbn [filter isAdapterCall isLightCommand].
    rewrite !app_nil_r. repeat split.
  - repeat split.
Qed.

(** X19.  What each input of the event loop can touch.  Only the poll tick
    calls a usage adapter or rewrites the usage log; only a signal
    changes [running] or the PID file; the status request sends nothing;
    and no input sends more than one command to the light. *)
Theorem handle_frame :
  forall (B : Builtins) (W : World) (config : ClaudeHueConfig)
         (i : Input) (s : DaemonState),
    let s' := snd (handle B W config i s) in
    (i <> Tick ->
     adapterCalls (trace s') = adapterCalls (trace s)
     /\ usageLog s' = usageLog s)
    /\ (i <> Signal -> running s' = running s /\ pidFile s' = pidFile s)
    /\ (i = GetStatus -> s' = s)
    /\ (List.length (lightCommands (trace s'))
        <= S (List.length (lightCommands (trace s))))%nat.
Proof.
  intros B W config i s. cbv zeta. rewrite handle_snd.
  destruct i as [| |body| |].
  - destruct (pollTick_frame B W config s) as [F1 [F2 [F3 F4]]].
    split; [intro K; exfalso; apply K; reflexivity|].
    split; [intros _; split; assumption|].
    split; [discriminate|].
    destruct (running s); [rewrite F3 by reflexivity|rewrite F4 by reflexivity];
      lia.
  - destruct (onLogChange_frame B W config s) as [F1 [F2 F3]].
    unfold onlyIO in F1.
    split; [intros _; split; [exact F2|rewrite F1; destruct s; reflexivity]|].
    split; [intros _; rewrite F1; destruct s; split; reflexivity|].
    split; [discriminate|exact F3].
  - destruct (postUsage_frame B W config body s) as [[F1 [F2 F3]] [F4 F5]].
    split; [intros _; split; assumption|].
    split; [intros _; split; assumption|].
    split; [discriminate|exact F5].
  - split; [intros _; split; reflexivity|].
    split; [intros _; split; reflexivity|].
    split; [reflexivity|]. lia.
  - destruct (shutdown_frame s) as [F1 [F2 F3]].
    split; [intros _; split; assumption|].
    split; [intro K; exfalso; apply K; reflexivity|].
    split; [discriminate|]. rewrite F3. lia.
Qed.

(* ===================================================================== *)
(** * Further properties: the usage parser                                 *)
(* ===================================================================== *)

(** X20.  The number that drives the light is never [NaN] on the API
    paths: whenever [parseUsageResponse] returns, no limit it reports has
    a [percentUsed] of [NaN], and [highestPercent] is 0 or the
    [percentUsed] of one of the reported limits, whatever the payload and
    whatever [parseFloat] makes of its strings. *)
Theorem parseUsageResponse_never_NaN :
  forall (B : Builtins) (raw : json) (resp : ClaudeUsageResponse),
    parseUsageResponse B raw = Some resp ->
    Forall (fun l => isNaN (percentUsed l) = false) (limits resp)
    /\ (highestPercent resp = Fin 0
        \/ exists l, In l (limits resp)
                     /\ highestPercent resp = percentUsed l)
    /\ isNaN (highestPercent resp) = false.
Proof.
  intros B raw resp H. unfold parseUsageResponse in H.
  destruct (pickHighest (collectLimits B raw)) as [h|] eqn:P; [|discriminate].
  inversion H. subst resp. cbn [limits highestPercent].
  pose proof (collectLimits_notNaN B raw) as NN.
  pose proof (pickHighest_from _ _ NN P) as Hh.
  split; [exact NN|]. split; [exact Hh|].
  destruct Hh as [->|[l [I ->]]]; [reflexivity|].
  rewrite Forall_forall in NN. apply NN. exact I.
Qed.

(** The theorem on a payload whose windows stand at 42 and 17 percent. *)
Lemma parseUsageResponse_never_NaN_example :
  exists resp,
    parseUsageResponse std (Example.usagePayload 42 17) = Some resp
    /\ isNaN (highestPercent resp) = false.
Proof.
  eexists. split; [vm_compute; reflexivity|].
  refine (proj2 (proj2 (parseUsageResponse_never_NaN std
                          (Example.usagePayload 42 17) _ _))).
  vm_compute. reflexivity.
Defined.
